(** * Storefront micro-services: cart, checkout, order store and stock

    A shallow embedding of the order service (cart and order handlers) and
    of the stock handlers of the product service, as Express handlers
    running over a world made of the Mongo collections of the services,
    the console, the clock and the transport towards the collaborators.

    Conventions of the embedding:
    - an [ObjectId] is the string of its hexadecimal form; the ids of the
      documents and of [req.user] are ObjectIds, while an id a request
      gives in its path or body is any string, which Mongoose casts with
      [castObjectId] where the code hands it to a query or a document;
    - a JavaScript [Number] that holds a quantity, a price or a stock is an
      integer of [Z] (no rounding occurs on integers of that range);
    - a [String] field that is missing from a document is the empty string:
      Mongoose's [required] validator rejects both alike; an [ObjectId] or
      a [Number] the handlers put in a document is always there;
    - the [carts] collection is keyed by [userId]: a cart document is only
      created when [Cart.findOne] found none for the user;
    - the [orders] and [products] collections are keyed by [_id]. *)

From stdpp Require Import base option list sorting strings pretty gmap fin_maps.
From Stdlib Require Import ZArith Lia.

Open Scope string_scope.
Open Scope list_scope.
Open Scope Z_scope.

(** ** Documents *)

Abbreviation ObjectId := string.

(** product-service/server.js, [productSchema]: the fields the order
    service reads, and the stock. *)
Record Product := mkProduct {
  p_id : ObjectId;
  p_name : string;
  p_price : Z;
  p_image : string;
  p_stock : Z
}.

(** Order service, [cartSchema]. *)
Record CartLine := mkCartLine {
  cl_productId : ObjectId;
  cl_quantity : Z
}.

Record Cart := mkCart {
  c_userId : ObjectId;
  c_items : list CartLine;
  c_updatedAt : Z
}.

(** Order service, [orderSchema]. *)
Record OrderItem := mkOrderItem {
  oi_productId : ObjectId;
  oi_name : string;
  oi_price : Z;
  oi_quantity : Z;
  oi_image : string
}.

Record Address := mkAddress {
  a_name : string;
  a_street : string;
  a_city : string;
  a_state : string;
  a_zipCode : string;
  a_country : string;
  a_phone : string
}.

Record Order := mkOrder {
  _id : ObjectId;
  userId : ObjectId;
  items : list OrderItem;
  totalAmount : Z;
  status : string;
  paymentStatus : string;
  paymentId : option string;
  shippingAddress : Address;
  trackingNumber : option string;
  createdAt : Z;
  updatedAt : Z
}.

(** Notification service, [notificationSchema] (the fields set from a
    request of the order service). *)
Record Notification := mkNotification {
  n_userId : ObjectId;
  n_type : string;
  n_title : string;
  n_message : string
}.

(** The line of [GET /cart]. *)
Record CartItem := mkCartItem {
  ci_productId : ObjectId;
  ci_name : string;
  ci_price : Z;
  ci_quantity : Z;
  ci_image : string;
  ci_subtotal : Z
}.

(** ** Responses *)

Inductive Body :=
| JError (error : string)
| JProduct (product : Product)
| JStock (message : string) (newStock : Z)
| JCartView (cartWithDetails : list CartItem) (total : Z)
| JCartSaved (message : string) (cart : Cart)
| JOrder (order : Order)
| JOrders (orders : list Order)
| JNotified (message : string).

Record Response := mkResponse {
  res_status : nat;
  res_body : Body
}.

(** ** The world *)

Record World := mkWorld {
  carts : gmap string Cart;
  orders : gmap string Order;
  products : gmap string Product;
  notifications : list Notification;
  (** transport of the next outbound HTTP calls, in order: [true] when
      the call does not reach its service; past the end every call does *)
  outages : list bool;
  console : list string;
  clock : Z
}.

Definition set_carts (f : gmap string Cart → gmap string Cart) (w : World) : World :=
  mkWorld (f (carts w)) (orders w) (products w) (notifications w)
          (outages w) (console w) (clock w).

Definition set_orders (f : gmap string Order → gmap string Order) (w : World) : World :=
  mkWorld (carts w) (f (orders w)) (products w) (notifications w)
          (outages w) (console w) (clock w).

Definition set_products (f : gmap string Product → gmap string Product) (w : World) : World :=
  mkWorld (carts w) (orders w) (f (products w)) (notifications w)
          (outages w) (console w) (clock w).

Definition set_notifications (f : list Notification → list Notification) (w : World) : World :=
  mkWorld (carts w) (orders w) (products w) (f (notifications w))
          (outages w) (console w) (clock w).

Definition set_outages (f : list bool → list bool) (w : World) : World :=
  mkWorld (carts w) (orders w) (products w) (notifications w)
          (f (outages w)) (console w) (clock w).

Definition set_console (f : list string → list string) (w : World) : World :=
  mkWorld (carts w) (orders w) (products w) (notifications w)
          (outages w) (f (console w)) (clock w).

(** ** Handlers as state transformers that may throw *)

Inductive outcome (A : Type) :=
| Ok (a : A)
| Throw (message : string).
Arguments Ok {A} a.
Arguments Throw {A} message.

Definition M (A : Type) : Type := World → outcome A * World.

Definition ret {A} (a : A) : M A := λ w, (Ok a, w).

Definition bind {A B} (m : M A) (k : A → M B) : M B :=
  λ w, match m w with
       | (Ok a, w') => k a w'
       | (Throw e, w') => (Throw e, w')
       end.

Definition throw {A} (e : string) : M A := λ w, (Throw e, w).

(** [try { m } catch (error) { h error }]: the effects of [m] up to the
    throw stay. *)
Definition try_catch {A} (m : M A) (h : string → M A) : M A :=
  λ w, match m w with
       | (Ok a, w') => (Ok a, w')
       | (Throw e, w') => h e w'
       end.

Definition get_world : M World := λ w, (Ok w, w).
Definition modify (f : World → World) : M unit := λ w, (Ok tt, f w).

Declare Scope handler_scope.
Delimit Scope handler_scope with handler.
Notation "'let*' x ':=' m 'in' k" := (bind m (λ x, k))
  (at level 10, x pattern, m at level 100, k at level 200) : handler_scope.
Notation "m ';;' k" := (bind m (λ _, k))
  (at level 100, k at level 200, right associativity) : handler_scope.
Open Scope handler_scope.

Definition console_error (line : string) : M unit :=
  modify (set_console (λ c, c ++ [line])).

Definition Date_now : M Z := λ w, (Ok (clock w), w).

(** ** Casting a string to an ObjectId *)

Definition is_hex (a : Ascii.ascii) : bool :=
  let n := Ascii.nat_of_ascii a in
  (Nat.leb 48 n && Nat.leb n 57) || (Nat.leb 97 n && Nat.leb n 102) ||
  (Nat.leb 65 n && Nat.leb n 70).

(** The lower-case of a hexadecimal digit. *)
Definition lower_hex (a : Ascii.ascii) : Ascii.ascii :=
  let n := Ascii.nat_of_ascii a in
  if Nat.leb 65 n && Nat.leb n 70 then Ascii.ascii_of_nat (n + 32) else a.

Fixpoint all_hex (s : string) : bool :=
  match s with
  | EmptyString => true
  | String a rest => is_hex a && all_hex rest
  end.

Fixpoint lower_case (s : string) : string :=
  match s with
  | EmptyString => EmptyString
  | String a rest => String (lower_hex a) (lower_case rest)
  end.

(** Mongoose's cast of a string to an ObjectId: the string has to be 24
    hexadecimal digits, of either case; the ObjectId prints in lower
    case. [None] is the [CastError]. *)
Definition castObjectId (s : string) : option ObjectId :=
  if Nat.eqb (String.length s) 24 && all_hex s then Some (lower_case s)
  else None.

(** ** Product service *)

Module ProductService.

(** [app.get('/products/:id')], once [findById] has cast
    [req.params.id] to the ObjectId [id]. *)
Definition getProduct (id : ObjectId) : M Response :=
  try_catch
    (let* w := get_world in
     match products w !! id with
     | None => ret (mkResponse 404 (JError "Product not found"))
     | Some product => ret (mkResponse 200 (JProduct product))
     end)
    (λ error, ret (mkResponse 500 (JError error))).

Definition with_stock (s : Z) (p : Product) : Product :=
  mkProduct (p_id p) (p_name p) (p_price p) (p_image p) s.

(** [app.patch('/products/:id/stock')], once [findById] has cast
    [req.params.id] to the ObjectId [id]. *)
Definition updateStock (id : ObjectId) (quantity : Z) (operation : string)
  : M Response :=
  try_catch
    (let* w := get_world in
     match products w !! id with
     | None => ret (mkResponse 404 (JError "Product not found"))
     | Some product =>
       if String.eqb operation "decrease" then
         if p_stock product <? quantity then
           ret (mkResponse 400 (JError "Insufficient stock"))
         else
           let product := with_stock (p_stock product - quantity) product in
           modify (set_products (insert id product));;
           ret (mkResponse 200 (JStock "Stock updated" (p_stock product)))
       else if String.eqb operation "increase" then
         let product := with_stock (p_stock product + quantity) product in
         modify (set_products (insert id product));;
         ret (mkResponse 200 (JStock "Stock updated" (p_stock product)))
       else
         modify (set_products (insert id product));;
         ret (mkResponse 200 (JStock "Stock updated" (p_stock product)))
     end)
    (λ error, ret (mkResponse 500 (JError error))).

(** [app.get('/products/:id')] on the string of the path: [findById]
    first casts it, and the [CastError] is caught as any error. *)
Definition getProductById (id : string) : M Response :=
  match castObjectId id with
  | None => ret (mkResponse 500 (JError "Cast to ObjectId failed"))
  | Some id => getProduct id
  end.

(** [app.patch('/products/:id/stock')] on the string of the path. *)
Definition patchStock (id : string) (quantity : Z) (operation : string)
  : M Response :=
  match castObjectId id with
  | None => ret (mkResponse 500 (JError "Cast to ObjectId failed"))
  | Some id => updateStock id quantity operation
  end.

End ProductService.

(** ** Notification service *)

Module NotificationService.

Definition getNotificationTitle (type : string) : string :=
  if String.eqb type "order_created" then "Order Confirmed"
  else if String.eqb type "order_status_updated" then "Order Status Updated"
  else if String.eqb type "payment_success" then "Payment Successful"
  else if String.eqb type "payment_failed" then "Payment Failed"
  else if String.eqb type "welcome" then "Welcome!"
  else "Notification".

(** [app.post('/notifications/send')]: the record is saved whether the
    simulated e-mail went out or not (that only sets its [status], which
    the record of this embedding does not carry). *)
Definition send (type userId message : string) : M Response :=
  try_catch
    (let notification :=
       mkNotification userId type (getNotificationTitle type) message in
     modify (set_notifications (λ l, l ++ [notification]));;
     ret (mkResponse 200 (JNotified "Notification processed")))
    (λ error, ret (mkResponse 500 (JError error))).

End NotificationService.

(** ** Outbound calls of the order service *)

(** The next outbound call: [true] when it does not reach its service. *)
Definition transport : M bool :=
  λ w, (Ok (default false (head (outages w))), set_outages tail w).

Definition is_2xx (r : Response) : bool :=
  (Nat.leb 200 (res_status r)) && (Nat.ltb (res_status r) 300).

(** [await axios.get/patch/post(...)]: throws when the call does not reach
    the service and when the service answers outside of 2xx; otherwise
    gives [response.data]. *)
Definition axios (service : M Response) : M Body :=
  let* down := transport in
  if (down : bool) then throw "Network Error"
  else
    let* response := service in
    if is_2xx response then ret (res_body response)
    else throw ("Request failed with status code " +:+ pretty (res_status response)).

(** ** Order service *)

Module OrderService.

(** [app.get('/cart')], the loop over [cart.items]. A 2xx answer of
    [GET /products/:id] is always a product document; reading the fields
    of anything else is a [TypeError]. *)
Fixpoint cart_details (cartItems : list CartLine)
    (cartWithDetails : list CartItem) (total : Z) : M (list CartItem * Z) :=
  match cartItems with
  | [] => ret (cartWithDetails, total)
  | item :: rest =>
    let* acc :=
      try_catch
        (let* data := axios (ProductService.getProduct (cl_productId item)) in
         match data with
         | JProduct product =>
           let cartItem :=
             mkCartItem (cl_productId item) (p_name product) (p_price product)
                        (cl_quantity item) (p_image product)
                        (p_price product * cl_quantity item) in
           ret (cartWithDetails ++ [cartItem], total + ci_subtotal cartItem)
         | _ => throw "TypeError"
         end)
        (λ error,
           console_error ("Product " +:+ cl_productId item +:+ " not found");;
           ret (cartWithDetails, total)) in
    cart_details rest (fst acc) (snd acc)
  end.

(** [app.get('/cart')] *)
Definition getCart (user : ObjectId) : M Response :=
  try_catch
    (let* w := get_world in
     match carts w !! user with
     | None => ret (mkResponse 200 (JCartView [] 0))
     | Some cart =>
       let* acc := cart_details (c_items cart) [] 0 in
       ret (mkResponse 200 (JCartView (fst acc) (snd acc)))
     end)
    (λ error, ret (mkResponse 500 (JError error))).

(** [item.productId.toString() === productId]: the hexadecimal form of the
    id of the line against the string of the body, as it was sent. *)
Definition same_product (productId : string) (item : CartLine) : bool :=
  String.eqb (cl_productId item) productId.

(** [existingItem.quantity += quantity], on the line [find] returned: the
    first one of that product. *)
Fixpoint add_quantity (productId : string) (quantity : Z)
    (cartItems : list CartLine) : list CartLine :=
  match cartItems with
  | [] => []
  | item :: rest =>
    if same_product productId item
    then mkCartLine (cl_productId item) (cl_quantity item + quantity) :: rest
    else item :: add_quantity productId quantity rest
  end.

(** The lines after [existingItem.quantity += quantity] or
    [cart.items.push({ productId, quantity })]; the push casts the string
    of the body to the ObjectId of the new line, and [None] is its
    [CastError]. *)
Definition upsert (productId : string) (quantity : Z)
    (cartItems : list CartLine) : option (list CartLine) :=
  match find (same_product productId) cartItems with
  | Some existingItem => Some (add_quantity productId quantity cartItems)
  | None =>
    match castObjectId productId with
    | Some stored => Some (cartItems ++ [mkCartLine stored quantity])
    | None => None
    end
  end.

(** [app.post('/cart/add')]; [productId] is the string of the body and
    [quantity] is [None] when the body has none. The product service casts
    the string of the path it is asked for. *)
Definition addItem (user : ObjectId) (productId : string)
    (quantity : option Z) : M Response :=
  try_catch
    (let quantity := default 1 quantity in
     let* data := axios (ProductService.getProductById productId) in
     match data with
     | JProduct _ =>
       let* w := get_world in
       let* now := Date_now in
       let cart :=
         match carts w !! user with
         | Some cart => cart
         | None => mkCart user [] now
         end in
       match upsert productId quantity (c_items cart) with
       | Some cartItems =>
         let cart := mkCart (c_userId cart) cartItems now in
         modify (set_carts (insert user cart));;
         ret (mkResponse 200 (JCartSaved "Product added to cart" cart))
       | None => throw "Cart validation failed"
       end
     | _ => ret (mkResponse 404 (JError "Product not found"))
     end)
    (λ error, ret (mkResponse 500 (JError error))).

(** [app.post('/orders')], the loop over [cart.items]: [inl] is the early
    [return res.status(400)]. *)
Fixpoint order_items (cartItems : list CartLine)
    (orderItems : list OrderItem) (totalAmount : Z)
  : M (Response + list OrderItem * Z) :=
  match cartItems with
  | [] => ret (inr (orderItems, totalAmount))
  | item :: rest =>
    let* data := axios (ProductService.getProduct (cl_productId item)) in
    match data with
    | JProduct product =>
      if p_stock product <? cl_quantity item then
        ret (inl (mkResponse 400
               (JError ("Insufficient stock for " +:+ p_name product))))
      else
        let orderItem :=
          mkOrderItem (cl_productId item) (p_name product) (p_price product)
                      (cl_quantity item) (p_image product) in
        order_items rest (orderItems ++ [orderItem])
                    (totalAmount + p_price product * cl_quantity item)
    | _ => throw "TypeError"
    end
  end.

Definition order_statuses : list string :=
  ["pending"; "confirmed"; "processing"; "shipped"; "delivered"; "cancelled"].

Definition payment_statuses : list string :=
  ["pending"; "completed"; "failed"; "refunded"].

(** [required: true] on a [String] path. *)
Definition required (s : string) : bool := negb (String.eqb s "").

Definition valid_address (a : Address) : bool :=
  required (a_name a) && required (a_street a) && required (a_city a) &&
  required (a_state a) && required (a_zipCode a) && required (a_country a).

(** The validation [save] runs against [orderSchema]. *)
Definition valid_order (o : Order) : bool :=
  forallb (λ i, required (oi_name i)) (items o) &&
  bool_decide (status o ∈ order_statuses) &&
  bool_decide (paymentStatus o ∈ payment_statuses) &&
  valid_address (shippingAddress o).

(** [new Order({ userId, items, totalAmount, shippingAddress })]: a new
    [_id], and the defaults of the schema. *)
Definition new_Order (user : ObjectId) (orderItems : list OrderItem)
    (total : Z) (address : Address) : M Order :=
  let* w := get_world in
  let* now := Date_now in
  ret (mkOrder (fresh (dom (orders w))) user orderItems total
               "pending" "pending" None address None now now).

(** [await order.save()] *)
Definition Order_save (order : Order) : M unit :=
  if valid_order order
  then modify (set_orders (insert (_id order) order))
  else throw "Order validation failed".

(** [app.post('/orders')], the loop over [orderItems]. *)
Fixpoint decrease_stock (orderItems : list OrderItem) : M unit :=
  match orderItems with
  | [] => ret tt
  | item :: rest =>
    axios (ProductService.updateStock (oi_productId item) (oi_quantity item)
                                      "decrease");;
    decrease_stock rest
  end.

(** The [try]/[catch] around [axios.post] to the notification service. *)
Definition notify (type user message : string) : M unit :=
  try_catch
    (axios (NotificationService.send type user message);; ret tt)
    (λ notificationError,
       console_error ("Notification service error: " +:+ notificationError)).

(** [app.post('/orders')] *)
Definition createOrder (user : ObjectId) (address : Address) : M Response :=
  try_catch
    (let* w := get_world in
     match carts w !! user with
     | None => ret (mkResponse 400 (JError "Cart is empty"))
     | Some cart =>
       if bool_decide (c_items cart = []) then
         ret (mkResponse 400 (JError "Cart is empty"))
       else
         let* checked := order_items (c_items cart) [] 0 in
         match checked with
         | inl response => ret response
         | inr (orderItems, total) =>
           let* order := new_Order user orderItems total address in
           Order_save order;;
           decrease_stock orderItems;;
           modify (set_carts (delete user));;
           notify "order_created" user
                  ("Order #" +:+ _id order +:+ " has been created successfully");;
           ret (mkResponse 201 (JOrder order))
         end
     end)
    (λ error, ret (mkResponse 500 (JError error))).

(** [Order.find({ userId }).sort({ createdAt: -1 })] *)
Definition newer_first (a b : Order) : Prop := createdAt b ≤ createdAt a.

#[global] Instance newer_first_dec a b : Decision (newer_first a b) :=
  Z_le_dec (createdAt b) (createdAt a).

Definition Order_find (user : ObjectId) (w : World) : list Order :=
  filter (λ o, userId o = user) (snd <$> map_to_list (orders w)).

(** [app.get('/orders')] *)
Definition listOrders (user : ObjectId) : M Response :=
  try_catch
    (let* w := get_world in
     let orders := merge_sort newer_first (Order_find user w) in
     ret (mkResponse 200 (JOrders orders)))
    (λ error, ret (mkResponse 500 (JError error))).

(** [Order.findOne({ _id, userId })], once [_id] is cast to the ObjectId
    [id]. *)
Definition Order_findOne (id user : ObjectId) (w : World) : option Order :=
  match orders w !! id with
  | Some order => if bool_decide (userId order = user) then Some order else None
  | None => None
  end.

(** [app.get('/orders/:id')], once [findOne] has cast [req.params.id] to
    the ObjectId [id]. *)
Definition getOrder (id user : ObjectId) : M Response :=
  try_catch
    (let* w := get_world in
     match Order_findOne id user w with
     | None => ret (mkResponse 404 (JError "Order not found"))
     | Some order => ret (mkResponse 200 (JOrder order))
     end)
    (λ error, ret (mkResponse 500 (JError error))).

Definition with_status (newStatus : string) (now : Z) (o : Order) : Order :=
  mkOrder (_id o) (userId o) (items o) (totalAmount o) newStatus
          (paymentStatus o) (paymentId o) (shippingAddress o)
          (trackingNumber o) (createdAt o) now.

(** [Order.findOneAndUpdate({ _id, userId }, { status, updatedAt },
    { new: true })]: no validator runs on an update. *)
Definition Order_findOneAndUpdate (id user : ObjectId) (newStatus : string)
    (now : Z) : M (option Order) :=
  let* w := get_world in
  match Order_findOne id user w with
  | None => ret None
  | Some order =>
    let order := with_status newStatus now order in
    modify (set_orders (insert id order));;
    ret (Some order)
  end.

(** [app.patch('/orders/:id/status')], once [findOneAndUpdate] has cast
    [req.params.id] to the ObjectId [id]. *)
Definition updateStatus (id user : ObjectId) (newStatus : string)
  : M Response :=
  try_catch
    (let* now := Date_now in
     let* found := Order_findOneAndUpdate id user newStatus now in
     match found with
     | None => ret (mkResponse 404 (JError "Order not found"))
     | Some order =>
       notify "order_status_updated" user
              ("Order #" +:+ _id order +:+ " status updated to " +:+ newStatus);;
       ret (mkResponse 200 (JOrder order))
     end)
    (λ error, ret (mkResponse 500 (JError error))).


(** [app.patch('/orders/:id/status')] on the string of the path. *)
Definition patchStatus (id : string) (user : ObjectId) (newStatus : string)
  : M Response :=
  match castObjectId id with
  | None => ret (mkResponse 500 (JError "Cast to ObjectId failed"))
  | Some id => updateStatus id user newStatus
  end.

End OrderService.

(** ** The order service as a state machine *)

(** A request, its user known and the id of its path cast; the product of
    [AddItem] is the string of the body. *)
Inductive Request :=
| GetCart (user : ObjectId)
| AddItem (user : ObjectId) (productId : string) (quantity : option Z)
| CreateOrder (user : ObjectId) (address : Address)
| ListOrders (user : ObjectId)
| GetOrder (id user : ObjectId)
| UpdateStatus (id user : ObjectId) (newStatus : string).

Definition handle (r : Request) : M Response :=
  match r with
  | GetCart user => OrderService.getCart user
  | AddItem user productId quantity => OrderService.addItem user productId quantity
  | CreateOrder user address => OrderService.createOrder user address
  | ListOrders user => OrderService.listOrders user
  | GetOrder id user => OrderService.getOrder id user
  | UpdateStatus id user newStatus => OrderService.updateStatus id user newStatus
  end.

(** At most one line per product in a cart. *)
Definition one_line_per_product (cartItems : list CartLine) : Prop :=
  NoDup (cl_productId <$> cartItems).

(** Stock is never negative. *)
Definition stock_nonneg (w : World) : Prop :=
  ∀ id product, products w !! id = Some product → 0 ≤ p_stock product.

(** ** Vocabulary of the properties *)

(** What [notify] leaves behind: the call consumed, and either the record
    in the notification service or the line on the console. *)
Definition notified (type user message : string) (w : World) : World :=
  if default false (head (outages w)) then
    set_console (λ c, c ++ ["Notification service error: Network Error"])
                (set_outages tail w)
  else
    set_notifications
      (λ l, l ++ [mkNotification user type
                    (NotificationService.getNotificationTitle type) message])
      (set_outages tail w).

Definition store_of_three : World :=
  let address := mkAddress "Ann" "1 Main St" "Town" "ST" "00000" "US" "" in
  let order id user at_ :=
    mkOrder id user [mkOrderItem "p1" "Lamp" 10 1 "lamp.png"] 10
            "pending" "pending" None address None at_ at_ in
  mkWorld ∅ (<["o1" := order "o1" "u1" 10]>
             (<["o2" := order "o2" "u2" 20]>
              (<["o3" := order "o3" "u1" 30]> ∅)))
          ∅ [] [] [] 40.

Definition cart_item (item : CartLine) (product : Product) : CartItem :=
  mkCartItem (cl_productId item) (p_name product) (p_price product)
             (cl_quantity item) (p_image product)
             (p_price product * cl_quantity item).

(** The line of the answer for a cart line, when its lookup resolves: the
    call reaches the catalog and the catalog has the product. *)
Definition resolve_line (catalog : gmap string Product) (down : bool)
    (item : CartLine) : option CartItem :=
  if down then None else cart_item item <$> catalog !! cl_productId item.

(** The resolved lines of a cart, in its order; the n-th lookup is the
    n-th outbound call. *)
Fixpoint resolved (catalog : gmap string Product) (outs : list bool)
    (cartItems : list CartLine) : list CartItem :=
  match cartItems with
  | [] => []
  | item :: rest =>
    match resolve_line catalog (default false (head outs)) item with
    | Some line => line :: resolved catalog (tail outs) rest
    | None => resolved catalog (tail outs) rest
    end
  end.

Definition sum_subtotals (l : list CartItem) : Z :=
  foldr (λ line acc, ci_subtotal line + acc) 0 l.

(** Same stores: the collections of the three services are equal. *)
Definition same_stores (w w' : World) : Prop :=
  carts w' = carts w ∧ orders w' = orders w ∧ products w' = products w ∧
  notifications w' = notifications w.

Definition cart_of_three : World :=
  mkWorld
    {["u1" := mkCart "u1" [mkCartLine "p1" 2; mkCartLine "gone" 1; mkCartLine "p2" 3] 0]}
    ∅
    (<["p1" := mkProduct "p1" "Lamp" 10 "lamp.png" 5]>
     (<["p2" := mkProduct "p2" "Bulb" 4 "bulb.png" 9]> ∅))
    [] [] [] 0.

Definition order_item (item : CartLine) (product : Product) : OrderItem :=
  mkOrderItem (cl_productId item) (p_name product) (p_price product)
              (cl_quantity item) (p_image product).

(** The sum over the lines of an order of price times quantity. *)
Definition order_total (l : list OrderItem) : Z :=
  foldr (λ i acc, oi_price i * oi_quantity i + acc) 0 l.

(** The quantity an order takes of a product, over all its lines. *)
Definition ordered_quantity (productId : ObjectId) (l : list OrderItem) : Z :=
  foldr (λ i acc, if String.eqb (oi_productId i) productId
                  then oi_quantity i + acc else acc) 0 l.

(** A cart line is in stock when the catalog has its product with at
    least the quantity of the line. *)
Definition in_stock (w : World) (item : CartLine) : Prop :=
  ∃ product, products w !! cl_productId item = Some product ∧
             cl_quantity item ≤ p_stock product.

(** The product of a cart line is in the catalog, under a name. *)
Definition resolves (w : World) (item : CartLine) : Prop :=
  ∃ product, products w !! cl_productId item = Some product ∧
             p_name product ≠ "".

Definition order_created (user : ObjectId) (order : Order) : string :=
  "Order #" +:+ _id order +:+ " has been created successfully".

Definition not_found_message : string :=
  "Request failed with status code " +:+ pretty 404%nat.

Definition bad_request_message : string :=
  "Request failed with status code " +:+ pretty 400%nat.

(** The order [POST /orders] builds from the outcome of the validation
    loop, in the world that loop left. *)
Definition built_order (user : ObjectId) (address : Address)
    (orderItems : list OrderItem) (total : Z) (w : World) : Order :=
  mkOrder (fresh (dom (orders w))) user orderItems total
          "pending" "pending" None address None (clock w) (clock w).

(** The world but for the transport consumed. *)
Definition same_but_transport (w w' : World) : Prop :=
  w' = set_outages (λ _, outages w') w.

(** The stock an order leaves of a product. *)
Definition after_order (productId : ObjectId) (l : list OrderItem)
    (product : Product) : Product :=
  ProductService.with_stock (p_stock product - ordered_quantity productId l)
                            product.

(** An order line the catalog can serve. *)
Definition servable (w : World) (i : OrderItem) : Prop :=
  ∃ product, products w !! oi_productId i = Some product ∧
             oi_quantity i ≤ p_stock product.

Definition checkout_world : World :=
  mkWorld {["u1" := mkCart "u1" [mkCartLine "p1" 2] 0]} ∅
          {["p1" := mkProduct "p1" "Lamp" 10 "lamp.png" 5]} [] [] [] 100.

Definition home : Address :=
  mkAddress "Ann" "1 Main St" "Town" "ST" "00000" "US" "".

(** The cart [POST /cart/add] saves, given the lines it upserted. *)
Definition saved_cart (user : ObjectId) (cartItems : list CartLine)
    (w : World) : Cart :=
  mkCart (c_userId (default (mkCart user [] (clock w)) (carts w !! user)))
         cartItems (clock w).

(** The lines of the cart of a user, none when the user has no cart. *)
Definition cart_lines (user : ObjectId) (w : World) : list CartLine :=
  from_option c_items [] (carts w !! user).

(** The string is the hexadecimal form of an ObjectId, as ObjectIds
    print. *)
Definition is_ObjectId (s : string) : Prop := castObjectId s = Some s.

Definition server_error_message : string :=
  "Request failed with status code " +:+ pretty 500%nat.

(** The integers a [Number] holds exactly. *)
Definition safe_integer (n : Z) : Prop := - (2 ^ 53 - 1) ≤ n ≤ 2 ^ 53 - 1.

(** Two spellings of the id of one product. *)
Definition lamp_id : ObjectId := "64b7f1a2c3d4e5f601234abc".
Definition lamp_ID : string := "64B7F1A2C3D4E5F601234ABC".
Definition desk_id : ObjectId := "64b7f1a2c3d4e5f601234abd".
Definition ann_id : ObjectId := "64b7f1a2c3d4e5f6012345a0".
Definition bob_id : ObjectId := "64b7f1a2c3d4e5f6012345b0".
Definition first_order_id : ObjectId := "64b7f1a2c3d4e5f601234001".

(** A shop where Ann has two lamps in her cart and an order. *)
Definition lamp_shop : World :=
  mkWorld {[ann_id := mkCart ann_id [mkCartLine lamp_id 2] 0]}
          {[first_order_id :=
              mkOrder first_order_id ann_id
                      [mkOrderItem lamp_id "Lamp" 10 1 "lamp.png"] 10
                      "pending" "pending" None home None 50 50]}
          {[lamp_id := mkProduct lamp_id "Lamp" 10 "lamp.png" 5]}
          [] [] [] 100.

(** ** Authentication of the order service *)

(** [req.user], as the user service gives it. *)
Record User := mkUser {
  u_userId : ObjectId;
  u_role : string
}.

(** The data of an answer of [POST /auth/verify]. *)
Record AuthData := mkAuthData {
  ad_valid : bool;
  ad_user : User
}.

(** The user service is not part of these services: it is the function
    from the token of a request ([None] when the body has none) to the
    status and the data of its answer. *)
Definition UserService : Type := option string → nat * AuthData.

(** [s.split(c)] *)
Fixpoint split_on (c : Ascii.ascii) (s : string) : list string :=
  match s with
  | EmptyString => [""]
  | String a rest =>
    if Ascii.eqb a c then "" :: split_on c rest
    else match split_on c rest with
         | piece :: pieces => String a piece :: pieces
         | [] => [String a ""]
         end
  end.

(** [req.headers.authorization?.split(' ')[1]] *)
Definition bearer_token (authorization : option string) : option string :=
  match authorization with
  | None => None
  | Some header => split_on Ascii.Space header !! 1%nat
  end.

(** [await axios.post(...)] to a service that answers with a status and
    data of its own: as [axios]. *)
Definition axios_data {A} (service : M (nat * A)) : M A :=
  let* down := transport in
  if (down : bool) then throw "Network Error"
  else
    let* response := service in
    if is_2xx (mkResponse (fst response) (JError "")) then ret (snd response)
    else throw ("Request failed with status code " +:+ pretty (fst response)).

(** Order service, [verifyUser]: [next] is the handler of the route, run
    with [req.user]. *)
Definition verifyUser (userService : UserService)
    (authorization : option string) (next : User → M Response) : M Response :=
  let* verdict :=
    try_catch
      (let token := bearer_token authorization in
       let* data := axios_data (ret (userService token)) in
       if ad_valid data then ret (inr (ad_user data))
       else ret (inl (mkResponse 401 (JError "Invalid token"))))
      (λ error, ret (inl (mkResponse 401 (JError "Authentication failed")))) in
  match verdict with
  | inl response => ret response
  | inr user => next user
  end.

(** The user service vouches for the request: the call reaches it, and it
    answers within 2xx that the token is valid. *)
Definition validates (userService : UserService)
    (authorization : option string) (w : World) : bool :=
  let answer := userService (bearer_token authorization) in
  negb (default false (head (outages w))) &&
  Nat.leb 200 (fst answer) && Nat.ltb (fst answer) 300 &&
  ad_valid (snd answer).

(** The routes of the order service, before [req.user] is known. *)
Inductive Endpoint :=
| CartGet
| CartAdd (productId : ObjectId) (quantity : option Z)
| OrdersPost (address : Address)
| OrdersGet
| OrderGet (id : ObjectId)
| OrderStatusPatch (id : ObjectId) (newStatus : string).

Definition as_request (user : ObjectId) (e : Endpoint) : Request :=
  match e with
  | CartGet => GetCart user
  | CartAdd productId quantity => AddItem user productId quantity
  | OrdersPost address => CreateOrder user address
  | OrdersGet => ListOrders user
  | OrderGet id => GetOrder id user
  | OrderStatusPatch id newStatus => UpdateStatus id user newStatus
  end.

(** [app.METHOD(path, verifyUser, handler)] *)
Definition serve (userService : UserService) (authorization : option string)
    (e : Endpoint) : M Response :=
  verifyUser userService authorization
             (λ user, handle (as_request (u_userId user) e)).

Definition requester (r : Request) : ObjectId :=
  match r with
  | GetCart user | AddItem user _ _ | CreateOrder user _ | ListOrders user
  | GetOrder _ user | UpdateStatus _ user _ => user
  end.

(** ** Product service: creating a product *)

(** The body of [POST /products]: a [String] that is missing is empty, a
    [Number] that is missing is [None]. Of the document created, the
    [Product] record keeps the fields it has. *)
Record ProductBody := mkProductBody {
  b_name : string;
  b_description : string;
  b_price : option Z;
  b_category : string;
  b_image : option string;
  b_stock : option Z
}.

Definition placeholder_image : string := "https://via.placeholder.com/300".

(** The validation [save] runs against [productSchema]. *)
Definition valid_product_body (body : ProductBody) : bool :=
  OrderService.required (b_name body) &&
  OrderService.required (b_description body) &&
  bool_decide (is_Some (b_price body)) &&
  OrderService.required (b_category body).

(** [new Product(req.body)]: a new [_id], and the defaults of the schema. *)
Definition new_Product (body : ProductBody) (w : World) : Product :=
  mkProduct (fresh (dom (products w))) (b_name body)
            (default 0 (b_price body))
            (default placeholder_image (b_image body))
            (default 0 (b_stock body)).

(** [app.post('/products')] *)
Definition createProduct (body : ProductBody) : M Response :=
  try_catch
    (let* w := get_world in
     let product := new_Product body w in
     (if valid_product_body body
      then modify (set_products (insert (p_id product) product))
      else throw "Product validation failed");;
     ret (mkResponse 201 (JProduct product)))
    (λ error, ret (mkResponse 400 (JError error))).

(** ** Vocabulary of the further properties *)

(** The character occurs in the string. *)
Fixpoint has_char (c : Ascii.ascii) (s : string) : bool :=
  match s with
  | EmptyString => false
  | String a rest => Ascii.eqb a c || has_char c rest
  end.

(** The quantity a cart holds of a product, over all its lines. *)
Definition quantity_of (productId : ObjectId) (l : list CartLine) : Z :=
  foldr (λ item acc, if String.eqb (cl_productId item) productId
                     then cl_quantity item + acc else acc) 0 l.

(** Every stored order sits under its own id, and its total is the sum of
    its lines. *)
Definition orders_wf (w : World) : Prop :=
  ∀ id order, orders w !! id = Some order →
    _id order = id ∧ totalAmount order = order_total (items order).

(** What no request changes of an order. *)
Definition same_order (o o' : Order) : Prop :=
  _id o' = _id o ∧ userId o' = userId o ∧ items o' = items o ∧
  totalAmount o' = totalAmount o ∧ paymentStatus o' = paymentStatus o ∧
  shippingAddress o' = shippingAddress o ∧ createdAt o' = createdAt o.

(** A user service that knows one token, of the user "u1". *)
Definition one_user : UserService :=
  λ token,
    if bool_decide (token = Some "t0k3n")
    then (200%nat, mkAuthData true (mkUser "u1" "user"))
    else (200%nat, mkAuthData false (mkUser "" "")).

(** * Properties *)

Ltac run :=
  repeat (unfold bind, ret, throw, try_catch, get_world, modify, Date_now,
          console_error, transport, axios in *; simpl in * ).

Lemma set_outages_tail_nil w : outages w = [] → set_outages tail w = w.
Proof. destruct w; simpl; intros ->; reflexivity. Qed.

(** ** The cast to an ObjectId *)

Lemma lower_hex_idempotent a : lower_hex (lower_hex a) = lower_hex a.
Proof. by destruct a as [[] [] [] [] [] [] [] []]. Qed.

Lemma is_hex_lower_hex a : is_hex a = true → is_hex (lower_hex a) = true.
Proof. by destruct a as [[] [] [] [] [] [] [] []]. Qed.

Lemma length_lower_case s : String.length (lower_case s) = String.length s.
Proof. induction s as [|a s IH]; simpl; [reflexivity | by rewrite IH]. Qed.

Lemma all_hex_lower_case s : all_hex s = true → all_hex (lower_case s) = true.
Proof.
  induction s as [|a s IH]; [reflexivity|].
  cbn [all_hex lower_case]. intros [Ha Hs]%andb_true_iff.
  by rewrite (is_hex_lower_hex a Ha), (IH Hs).
Qed.

Lemma lower_case_idempotent s : lower_case (lower_case s) = lower_case s.
Proof.
  induction s as [|a s IH]; [reflexivity|].
  cbn [lower_case]. by rewrite lower_hex_idempotent, IH.
Qed.

(** What a string casts to is an ObjectId as ObjectIds print: it casts to
    itself. *)
Lemma castObjectId_idempotent s id :
  castObjectId s = Some id → castObjectId id = Some id.
Proof.
  unfold castObjectId.
  destruct (Nat.eqb (String.length s) 24 && all_hex s) eqn:Hs; [|discriminate].
  intros [= <-]. apply andb_true_iff in Hs as [Hlength Hhex].
  by rewrite length_lower_case, Hlength, (all_hex_lower_case s Hhex),
    lower_case_idempotent.
Qed.

(** ** Product service: stock *)

Section Stock.
Import ProductService.

Variables (w : World) (id : ObjectId) (quantity : Z).

Lemma updateStock_missing operation :
  products w !! id = None →
  updateStock id quantity operation w
  = (Ok (mkResponse 404 (JError "Product not found")), w).
Proof. intros H. unfold updateStock. run. rewrite H. reflexivity. Qed.

Lemma updateStock_decrease_short product :
  products w !! id = Some product →
  p_stock product < quantity →
  updateStock id quantity "decrease" w
  = (Ok (mkResponse 400 (JError "Insufficient stock")), w).
Proof.
  intros H Hlt. unfold updateStock. run. rewrite H. simpl.
  destruct (Z.ltb_spec (p_stock product) quantity); [reflexivity | lia].
Qed.

Lemma updateStock_decrease_ok product :
  products w !! id = Some product →
  quantity ≤ p_stock product →
  updateStock id quantity "decrease" w
  = (Ok (mkResponse 200 (JStock "Stock updated" (p_stock product - quantity))),
     set_products (insert id (with_stock (p_stock product - quantity) product)) w).
Proof.
  intros H Hle. unfold updateStock. run. rewrite H. simpl.
  destruct (Z.ltb_spec (p_stock product) quantity); [lia | reflexivity].
Qed.

Lemma updateStock_increase product :
  products w !! id = Some product →
  updateStock id quantity "increase" w
  = (Ok (mkResponse 200 (JStock "Stock updated" (p_stock product + quantity))),
     set_products (insert id (with_stock (p_stock product + quantity) product)) w).
Proof. intros H. unfold updateStock. run. rewrite H. reflexivity. Qed.

End Stock.

(** C8. [adjustStock] is [PATCH /products/:id/stock], asked with a string
    that is an ObjectId. Without the product it answers 404 "Product not
    found". On a product, a decrease by more than the stock answers 400
    "Insufficient stock" and leaves the world as it was; any other
    decrease answers 200 with [newStock] the old stock minus the quantity,
    and an increase answers 200 with [newStock] the old stock plus the
    quantity; [newStock] is the stock stored. *)
Theorem adjustStock_contract (w : World) (id : string) (productId : ObjectId)
    (quantity : Z) :
  castObjectId id = Some productId →
  (products w !! productId = None →
   ∀ operation,
     ProductService.patchStock id quantity operation w
     = (Ok (mkResponse 404 (JError "Product not found")), w)) ∧
  (∀ product, products w !! productId = Some product →
     (p_stock product < quantity →
      ProductService.patchStock id quantity "decrease" w
      = (Ok (mkResponse 400 (JError "Insufficient stock")), w)) ∧
     (quantity ≤ p_stock product →
      ∃ w', ProductService.patchStock id quantity "decrease" w
            = (Ok (mkResponse 200
                     (JStock "Stock updated" (p_stock product - quantity))), w')
            ∧ p_stock <$> products w' !! productId
              = Some (p_stock product - quantity)) ∧
     (∃ w', ProductService.patchStock id quantity "increase" w
            = (Ok (mkResponse 200
                     (JStock "Stock updated" (p_stock product + quantity))), w')
            ∧ p_stock <$> products w' !! productId
              = Some (p_stock product + quantity))).
Proof.
  intros Hcast. unfold ProductService.patchStock. rewrite Hcast. split.
  - intros H operation. by apply updateStock_missing.
  - intros product H. split; [|split].
    + by apply updateStock_decrease_short.
    + intros Hle. eexists. split; [by apply updateStock_decrease_ok|].
      simpl. by rewrite lookup_insert_eq.
    + eexists. split; [by apply updateStock_increase|].
      simpl. by rewrite lookup_insert_eq.
Qed.

Lemma adjustStock_contract_witness :
  ProductService.patchStock desk_id 2 "decrease" lamp_shop
  = (Ok (mkResponse 404 (JError "Product not found")), lamp_shop) ∧
  ProductService.patchStock lamp_ID 7 "decrease" lamp_shop
  = (Ok (mkResponse 400 (JError "Insufficient stock")), lamp_shop) ∧
  (∃ w', ProductService.patchStock lamp_ID 2 "decrease" lamp_shop
         = (Ok (mkResponse 200 (JStock "Stock updated" 3)), w')
         ∧ p_stock <$> products w' !! lamp_id = Some 3) ∧
  (∃ w', ProductService.patchStock lamp_id 2 "increase" lamp_shop
         = (Ok (mkResponse 200 (JStock "Stock updated" 7)), w')
         ∧ p_stock <$> products w' !! lamp_id = Some 7).
Proof.
  destruct (adjustStock_contract lamp_shop desk_id desk_id 2 eq_refl)
    as [Hmissing _].
  destruct (adjustStock_contract lamp_shop lamp_ID lamp_id 7 eq_refl)
    as [_ Hshort].
  destruct (adjustStock_contract lamp_shop lamp_ID lamp_id 2 eq_refl)
    as [_ Hdecrease].
  destruct (adjustStock_contract lamp_shop lamp_id lamp_id 2 eq_refl)
    as [_ Hincrease].
  specialize (Hshort (mkProduct lamp_id "Lamp" 10 "lamp.png" 5) eq_refl)
    as [Hshort _].
  specialize (Hdecrease (mkProduct lamp_id "Lamp" 10 "lamp.png" 5) eq_refl)
    as (_ & Hdecrease & _).
  specialize (Hincrease (mkProduct lamp_id "Lamp" 10 "lamp.png" 5) eq_refl)
    as (_ & _ & Hincrease).
  split; [apply Hmissing; reflexivity|].
  split; [apply Hshort; simpl; lia|].
  split; [apply Hdecrease; simpl; lia | apply Hincrease].
Defined.

Lemma updateStock_products (w : World) (id : ObjectId) (quantity : Z)
    (operation : string) :
  products (snd (ProductService.updateStock id quantity operation w))
  = match products w !! id with
    | None => products w
    | Some product =>
      if String.eqb operation "decrease" then
        if p_stock product <? quantity then products w
        else <[id := ProductService.with_stock (p_stock product - quantity) product]>
               (products w)
      else if String.eqb operation "increase" then
        <[id := ProductService.with_stock (p_stock product + quantity) product]>
          (products w)
      else <[id := product]> (products w)
    end.
Proof.
  unfold ProductService.updateStock. run.
  destruct (products w !! id) as [product|]; [|reflexivity]. simpl.
  destruct (String.eqb operation "decrease").
  - destruct (p_stock product <? quantity); reflexivity.
  - destruct (String.eqb operation "increase"); reflexivity.
Qed.

Lemma stock_nonneg_insert (w : World) (id : ObjectId) (product : Product) :
  stock_nonneg w → 0 ≤ p_stock product →
  ∀ i p, <[id := product]> (products w) !! i = Some p → 0 ≤ p_stock p.
Proof.
  intros Hw Hp i p. rewrite lookup_insert.
  case_decide; [intros [= <-]; exact Hp | apply Hw].
Qed.

(** C10. From a world where no stock is negative, a stock update by a
    quantity that is not negative leaves no stock negative, whatever the
    operation; a decrease that would take the stock below zero is answered
    400 with the world as it was, and an increase stores the old stock
    plus the quantity, which is not below the old stock. *)
Theorem stock_update_keeps_stock_nonneg (w : World) (id : ObjectId)
    (quantity : Z) (operation : string) :
  stock_nonneg w → 0 ≤ quantity →
  stock_nonneg (snd (ProductService.updateStock id quantity operation w)) ∧
  (∀ product, products w !! id = Some product →
     (p_stock product - quantity < 0 →
      ProductService.updateStock id quantity "decrease" w
      = (Ok (mkResponse 400 (JError "Insufficient stock")), w)) ∧
     (∃ product',
        products (snd (ProductService.updateStock id quantity "increase" w)) !! id
        = Some product' ∧
        p_stock product' = p_stock product + quantity ∧
        p_stock product ≤ p_stock product')).
Proof.
  intros Hw Hq. split.
  - unfold stock_nonneg. rewrite updateStock_products.
    destruct (products w !! id) as [product|] eqn:Hid; [|exact Hw].
    pose proof (Hw _ _ Hid) as Hs.
    destruct (String.eqb operation "decrease").
    + destruct (Z.ltb_spec (p_stock product) quantity); [exact Hw|].
      apply stock_nonneg_insert; [exact Hw | simpl; lia].
    + destruct (String.eqb operation "increase");
        apply stock_nonneg_insert; try exact Hw; simpl; lia.
  - intros product Hid. split.
    + intros Hneg. apply updateStock_decrease_short with product; [exact Hid | lia].
    + rewrite updateStock_products, Hid. simpl.
      eexists. rewrite lookup_insert_eq. split; [reflexivity|]. simpl. lia.
Qed.

Lemma stock_update_keeps_stock_nonneg_witness :
  let w := mkWorld ∅ ∅ {["p1" := mkProduct "p1" "Lamp" 10 "lamp.png" 5]} [] [] [] 0 in
  stock_nonneg w ∧ 0 ≤ 7 ∧
  stock_nonneg (snd (ProductService.updateStock "p1" 7 "decrease" w)) ∧
  ProductService.updateStock "p1" 7 "decrease" w
  = (Ok (mkResponse 400 (JError "Insufficient stock")), w).
Proof.
  intros w.
  assert (Hw : stock_nonneg w).
  { intros i p. unfold w. simpl. rewrite lookup_singleton.
    case_decide; [intros [= <-]; simpl; lia | discriminate]. }
  assert (Hq : 0 ≤ 7) by lia.
  destruct (stock_update_keeps_stock_nonneg w "p1" 7 "decrease" Hw Hq)
    as [Hkeep Hcases].
  destruct (Hcases (mkProduct "p1" "Lamp" 10 "lamp.png" 5) eq_refl) as [Hshort _].
  split; [exact Hw|]. split; [exact Hq|]. split; [exact Hkeep|].
  apply Hshort. simpl. lia.
Defined.

(** ** Order service: notifications *)

Lemma notify_absorbs (type user message : string) (w : World) :
  OrderService.notify type user message w = (Ok tt, notified type user message w).
Proof.
  unfold OrderService.notify, notified, NotificationService.send. run.
  destruct (default false (head (outages w))); reflexivity.
Qed.

Lemma notified_stores (type user message : string) (w : World) :
  carts (notified type user message w) = carts w ∧
  orders (notified type user message w) = orders w ∧
  products (notified type user message w) = products w.
Proof. unfold notified. destruct (default false (head (outages w))); done. Qed.

(** ** Order service: checkout of an empty cart *)

Lemma createOrder_no_cart w user address :
  carts w !! user = None →
  OrderService.createOrder user address w
  = (Ok (mkResponse 400 (JError "Cart is empty")), w).
Proof. intros H. unfold OrderService.createOrder. run. by rewrite H. Qed.

Lemma createOrder_no_lines w user address cart :
  carts w !! user = Some cart → c_items cart = [] →
  OrderService.createOrder user address w
  = (Ok (mkResponse 400 (JError "Cart is empty")), w).
Proof.
  intros H Hitems. unfold OrderService.createOrder. run.
  rewrite H. simpl. by rewrite Hitems.
Qed.

(** C4. With no cart for the user, or a cart without lines, [createOrder]
    answers 400 "Cart is empty" and the world is the one before the call:
    no order is stored, no stock moved, no notification sent. *)
Theorem createOrder_empty_cart (w : World) (user : ObjectId) (address : Address) :
  (carts w !! user = None ∨
   ∃ cart, carts w !! user = Some cart ∧ c_items cart = []) →
  OrderService.createOrder user address w
  = (Ok (mkResponse 400 (JError "Cart is empty")), w).
Proof.
  intros [Hnone | (cart & Hcart & Hitems)].
  - by apply createOrder_no_cart.
  - by apply createOrder_no_lines with cart.
Qed.

Lemma createOrder_empty_cart_witness :
  let address := mkAddress "Ann" "1 Main St" "Town" "ST" "00000" "US" "" in
  let w := mkWorld {["u1" := mkCart "u1" [] 0]} ∅
                   {["p1" := mkProduct "p1" "Lamp" 10 "lamp.png" 5]} [] [] [] 0 in
  OrderService.createOrder "u1" address w
  = (Ok (mkResponse 400 (JError "Cart is empty")), w) ∧
  OrderService.createOrder "u2" address w
  = (Ok (mkResponse 400 (JError "Cart is empty")), w).
Proof.
  intros address w. split.
  - apply (createOrder_empty_cart w "u1" address).
    right. exists (mkCart "u1" [] 0). split; reflexivity.
  - apply (createOrder_empty_cart w "u2" address). left. reflexivity.
Defined.

(** ** Order store *)

Section OrderStore.
Import OrderService.

Lemma Order_findOne_Some id user w o :
  Order_findOne id user w = Some o ↔ orders w !! id = Some o ∧ userId o = user.
Proof.
  unfold Order_findOne. destruct (orders w !! id) as [o'|].
  - destruct (bool_decide_reflect (userId o' = user)) as [Hu|Hu].
    + split; [intros [= <-]; auto | intros [[= <-] _]; reflexivity].
    + split; [discriminate | intros [[= <-] Hu']; contradiction].
  - split; [discriminate | intros [? _]; discriminate].
Qed.

Lemma Order_findOne_None id user w :
  Order_findOne id user w = None ↔
  ∀ o, orders w !! id = Some o → userId o ≠ user.
Proof.
  unfold Order_findOne. destruct (orders w !! id) as [o'|].
  - destruct (bool_decide_reflect (userId o' = user)) as [Hu|Hu].
    + split; [discriminate | intros H; exfalso; exact (H o' eq_refl Hu)].
    + split; [intros _ o [= <-]; exact Hu | reflexivity].
  - split; [intros _ o; discriminate | reflexivity].
Qed.

Lemma getOrder_run id user w :
  getOrder id user w
  = (Ok match Order_findOne id user w with
        | None => mkResponse 404 (JError "Order not found")
        | Some order => mkResponse 200 (JOrder order)
        end, w).
Proof. unfold getOrder. run. destruct (Order_findOne id user w); reflexivity. Qed.

Lemma elem_of_Order_find user w o :
  o ∈ Order_find user w ↔ userId o = user ∧ ∃ id, orders w !! id = Some o.
Proof.
  unfold Order_find. rewrite list_elem_of_filter, list_elem_of_fmap. split.
  - intros [Hu ([id o'] & -> & Hin)]. split; [exact Hu|].
    exists id. by apply elem_of_map_to_list.
  - intros [Hu [id Hid]]. split; [exact Hu|].
    exists (id, o). split; [reflexivity|]. by apply elem_of_map_to_list.
Qed.

#[local] Instance newer_first_total : Total newer_first.
Proof. intros a b. unfold newer_first. lia. Qed.

#[local] Instance newer_first_trans : Transitive newer_first.
Proof. intros a b c. unfold newer_first. lia. Qed.

Lemma listOrders_run user w :
  listOrders user w
  = (Ok (mkResponse 200 (JOrders (merge_sort newer_first (Order_find user w)))), w).
Proof. reflexivity. Qed.

Lemma listOrders_sorted user w :
  StronglySorted newer_first (merge_sort newer_first (Order_find user w)).
Proof. apply StronglySorted_merge_sort; apply _. Qed.

End OrderStore.

(** C7. Asking for an order of the store with another user than its owner
    answers 404 "Order not found"; an order [GET /orders/:id] answers with
    is the stored one of that id and belongs to the caller; [GET /orders]
    answers with exactly the caller's orders of the store, each once,
    those created later first. No read changes the world. *)
Theorem order_reads_are_scoped (w : World) (user : ObjectId) :
  (∀ id o, orders w !! id = Some o → userId o ≠ user →
     OrderService.getOrder id user w
     = (Ok (mkResponse 404 (JError "Order not found")), w)) ∧
  (∀ id response w',
     OrderService.getOrder id user w = (Ok response, w') →
     w' = w ∧
     ∀ o, res_body response = JOrder o → orders w !! id = Some o ∧ userId o = user) ∧
  (∃ os,
     OrderService.listOrders user w = (Ok (mkResponse 200 (JOrders os)), w) ∧
     (∀ o, o ∈ os ↔ userId o = user ∧ ∃ id, orders w !! id = Some o) ∧
     os ≡ₚ OrderService.Order_find user w ∧
     StronglySorted (λ a b, createdAt b ≤ createdAt a) os).
Proof.
  split; [|split].
  - intros id o Hid Hne. rewrite getOrder_run.
    assert (OrderService.Order_findOne id user w = None) as ->; [|reflexivity].
    apply Order_findOne_None. intros o' Ho'. congruence.
  - intros id response w'. rewrite getOrder_run. intros [= <- <-].
    split; [reflexivity|]. intros o.
    destruct (OrderService.Order_findOne id user w) as [o'|] eqn:Hfind;
      simpl; [|discriminate].
    intros [= <-]. by apply Order_findOne_Some.
  - eexists. split; [apply listOrders_run|]. split; [|split].
    + intros o. rewrite merge_sort_Permutation. apply elem_of_Order_find.
    + apply merge_sort_Permutation.
    + apply listOrders_sorted.
Qed.

Lemma order_reads_are_scoped_witness :
  OrderService.getOrder "o2" "u1" store_of_three
  = (Ok (mkResponse 404 (JError "Order not found")), store_of_three) ∧
  ∃ os, OrderService.listOrders "u1" store_of_three
        = (Ok (mkResponse 200 (JOrders os)), store_of_three) ∧
        _id <$> os = ["o3"; "o1"].
Proof.
  destruct (order_reads_are_scoped store_of_three "u1") as (Hother & _ & Hlist).
  split.
  - eapply (Hother "o2"); [reflexivity | discriminate].
  - destruct Hlist as (os & Hrun & _). exists os. split; [exact Hrun|].
    vm_compute in Hrun. injection Hrun as <-. reflexivity.
Defined.

Section StatusUpdate.
Import OrderService.

Lemma updateStatus_missing id user newStatus w :
  Order_findOne id user w = None →
  updateStatus id user newStatus w
  = (Ok (mkResponse 404 (JError "Order not found")), w).
Proof.
  intros H. unfold updateStatus, Order_findOneAndUpdate. run.
  rewrite H. reflexivity.
Qed.

Lemma updateStatus_found id user newStatus w o :
  Order_findOne id user w = Some o →
  let o' := with_status newStatus (clock w) o in
  updateStatus id user newStatus w
  = (Ok (mkResponse 200 (JOrder o')),
     notified "order_status_updated" user
       ("Order #" +:+ _id o' +:+ " status updated to " +:+ newStatus)
       (set_orders (insert id o') w)).
Proof.
  intros H o'. unfold updateStatus, Order_findOneAndUpdate.
  unfold try_catch, bind at 1. unfold Date_now.
  unfold bind at 1. unfold bind at 1. unfold get_world. rewrite H.
  unfold bind at 1. unfold modify. unfold ret at 1.
  unfold bind at 1. rewrite notify_absorbs. reflexivity.
Qed.

End StatusUpdate.

(** C6. [updateStatus] is [PATCH /orders/:id/status], asked with a string
    that is an ObjectId. It answers 404 "Order not found", with the world
    as it was, when the store has no order of that id or has one of
    another user. On an order of the caller it answers 200 with the order
    whose [status] is the new one and whose [updatedAt] is the time of
    the call, stored under the same id, every other field as before:
    this for every former status and every new status, whatever the
    outcome of the notification. *)
Theorem updateStatus_contract (w : World) (id : string)
    (orderId user : ObjectId) (newStatus : string) :
  castObjectId id = Some orderId →
  ((orders w !! orderId = None ∨
    ∃ o, orders w !! orderId = Some o ∧ userId o ≠ user) →
   OrderService.patchStatus id user newStatus w
   = (Ok (mkResponse 404 (JError "Order not found")), w)) ∧
  (∀ o, orders w !! orderId = Some o → userId o = user →
     ∃ o' w',
       OrderService.patchStatus id user newStatus w
       = (Ok (mkResponse 200 (JOrder o')), w') ∧
       orders w' = <[orderId := o']> (orders w) ∧
       status o' = newStatus ∧ updatedAt o' = clock w ∧
       o' = OrderService.with_status newStatus (clock w) o ∧
       carts w' = carts w ∧ products w' = products w).
Proof.
  intros Hcast. unfold OrderService.patchStatus. rewrite Hcast. split.
  - intros H. apply updateStatus_missing. apply Order_findOne_None.
    intros o Ho. destruct H as [H | (o' & H & Hne)]; congruence.
  - intros o Ho Hu.
    assert (Hfind : OrderService.Order_findOne orderId user w = Some o)
      by (by apply Order_findOne_Some).
    eexists _, _. split; [apply (updateStatus_found _ _ _ _ _ Hfind)|].
    match goal with |- context [notified ?t ?u ?m ?x] =>
      destruct (notified_stores t u m x) as (Hc & Ho' & Hp) end.
    rewrite Hc, Ho', Hp. repeat split.
Qed.

Lemma updateStatus_contract_witness :
  OrderService.patchStatus first_order_id bob_id "shipped" lamp_shop
  = (Ok (mkResponse 404 (JError "Order not found")), lamp_shop) ∧
  ∃ o' w',
    OrderService.patchStatus "64B7F1A2C3D4E5F601234001" ann_id "pending"
      (set_orders (alter (OrderService.with_status "delivered" 60) first_order_id)
                  lamp_shop)
    = (Ok (mkResponse 200 (JOrder o')), w') ∧
    status o' = "pending" ∧ updatedAt o' = 100.
Proof.
  split.
  - destruct (updateStatus_contract lamp_shop first_order_id first_order_id
                bob_id "shipped" eq_refl) as [H _].
    apply H. right. eexists. split; [reflexivity | discriminate].
  - destruct (updateStatus_contract
                (set_orders (alter (OrderService.with_status "delivered" 60)
                               first_order_id) lamp_shop)
                "64B7F1A2C3D4E5F601234001" first_order_id ann_id "pending"
                eq_refl) as [_ H].
    edestruct H as (o' & w' & Hrun & _ & Hs & Hu & _); [reflexivity..|].
    exists o', w'. split; [exact Hrun|]. split; [exact Hs | exact Hu].
Defined.

(** ** Order service: reading the cart *)

Lemma same_stores_refl w : same_stores w w.
Proof. by repeat split. Qed.

Lemma same_stores_trans w1 w2 w3 :
  same_stores w1 w2 → same_stores w2 w3 → same_stores w1 w3.
Proof. unfold same_stores. intros (-> & -> & -> & ->) (-> & -> & -> & ->). done. Qed.

Section ReadCart.
Import OrderService.

(** One turn of the loop of [GET /cart]. *)
Lemma cart_details_cons item rest acc total w :
  ∃ w1,
    same_stores w w1 ∧ outages w1 = tail (outages w) ∧
    cart_details (item :: rest) acc total w
    = cart_details rest
        (acc ++ option_list (resolve_line (products w)
                               (default false (head (outages w))) item))
        (total + from_option ci_subtotal 0
                   (resolve_line (products w)
                      (default false (head (outages w))) item))
        w1.
Proof.
  unfold resolve_line. simpl. unfold ProductService.getProduct. run.
  destruct (default false (head (outages w))); simpl.
  - eexists. split; [|split; [|rewrite app_nil_r, Z.add_0_r; reflexivity]];
      [by repeat split | reflexivity].
  - destruct (products w !! cl_productId item) as [product|]; simpl.
    + eexists. split; [|split; [|reflexivity]];
        [by repeat split | reflexivity].
    + eexists. split; [|split; [|rewrite app_nil_r, Z.add_0_r; reflexivity]];
        [by repeat split | reflexivity].
Qed.

Lemma cart_details_run cartItems : ∀ acc total w,
  ∃ w',
    same_stores w w' ∧
    cart_details cartItems acc total w
    = (Ok (acc ++ resolved (products w) (outages w) cartItems,
           total + sum_subtotals (resolved (products w) (outages w) cartItems)),
       w').
Proof.
  induction cartItems as [|item rest IH]; intros acc total w.
  - exists w. split; [apply same_stores_refl|].
    simpl. rewrite app_nil_r, Z.add_0_r. reflexivity.
  - destruct (cart_details_cons item rest acc total w) as (w1 & Hs & Ho & ->).
    edestruct IH as (w' & Hs' & ->).
    exists w'. split; [by eapply same_stores_trans|].
    destruct Hs as (_ & _ & -> & _). rewrite Ho. simpl.
    destruct (resolve_line _ _ item) as [line|]; simpl.
    + rewrite <- app_assoc. simpl. do 3 f_equal. lia.
    + rewrite app_nil_r, Z.add_0_r. reflexivity.
Qed.

Lemma elem_of_resolved catalog cartItems : ∀ outs line,
  line ∈ resolved catalog outs cartItems →
  ∃ item product,
    item ∈ cartItems ∧ catalog !! cl_productId item = Some product ∧
    line = cart_item item product.
Proof.
  induction cartItems as [|item rest IH]; intros outs line; simpl.
  - intros H. by apply elem_of_nil in H.
  - unfold resolve_line.
    destruct (default false (head outs)).
    + intros H. destruct (IH _ _ H) as (i & p & Hi & Hp & ->).
      exists i, p. split; [by right | done].
    + destruct (catalog !! cl_productId item) as [product|] eqn:Hp; simpl.
      * intros [-> | H]%elem_of_cons.
        -- exists item, product. split; [by left | done].
        -- destruct (IH _ _ H) as (i & p & Hi & Hp' & ->).
           exists i, p. split; [by right | done].
      * intros H. destruct (IH _ _ H) as (i & p & Hi & Hp' & ->).
        exists i, p. split; [by right | done].
Qed.

Lemma resolved_reachable catalog cartItems :
  resolved catalog [] cartItems
  = omap (λ item, cart_item item <$> catalog !! cl_productId item) cartItems.
Proof.
  induction cartItems as [|item rest IH]; simpl; [reflexivity|].
  unfold resolve_line. simpl.
  destruct (catalog !! cl_productId item); simpl; by rewrite IH.
Qed.

End ReadCart.

(** C9. On a stored cart, [GET /cart] answers 200 with the lines whose
    lookup resolved, in the order of the cart, and with the sum of their
    subtotals; a line whose lookup failed is left out of both. Every line
    of the answer comes from a line of the cart whose product the catalog
    has, with subtotal price times quantity, so a line whose product the
    catalog lacks never shows; when every call reaches the catalog, the
    lines left out are exactly those. The stored carts are the same after
    the call, the unresolved lines included. *)
Theorem getCart_skips_unresolved (w : World) (user : ObjectId) (cart : Cart) :
  carts w !! user = Some cart →
  ∃ lines total w',
    OrderService.getCart user w
    = (Ok (mkResponse 200 (JCartView lines total)), w') ∧
    lines = resolved (products w) (outages w) (c_items cart) ∧
    total = sum_subtotals lines ∧
    (∀ line, line ∈ lines →
       ci_subtotal line = ci_price line * ci_quantity line ∧
       ∃ item product,
         item ∈ c_items cart ∧
         products w !! cl_productId item = Some product ∧
         line = cart_item item product) ∧
    (outages w = [] →
     lines = omap (λ item, cart_item item <$> products w !! cl_productId item)
                  (c_items cart)) ∧
    carts w' = carts w ∧ carts w' !! user = Some cart.
Proof.
  intros Hcart.
  destruct (cart_details_run (c_items cart) [] 0 w) as (w' & Hs & Hrun).
  exists (resolved (products w) (outages w) (c_items cart)),
         (sum_subtotals (resolved (products w) (outages w) (c_items cart))), w'.
  split.
  { unfold OrderService.getCart. unfold try_catch, bind at 1, get_world.
    rewrite Hcart. unfold bind. rewrite Hrun. reflexivity. }
  split; [reflexivity|]. split; [reflexivity|]. split.
  { intros line Hin.
    destruct (elem_of_resolved _ _ _ _ Hin) as (item & product & Hi & Hp & ->).
    split; [reflexivity|]. by exists item, product. }
  split.
  { intros ->. apply resolved_reachable. }
  destruct Hs as (Hc & _). rewrite Hc. by split.
Qed.

Lemma getCart_skips_unresolved_witness :
  ∃ w',
    OrderService.getCart "u1" cart_of_three
    = (Ok (mkResponse 200
             (JCartView [mkCartItem "p1" "Lamp" 10 2 "lamp.png" 20;
                         mkCartItem "p2" "Bulb" 4 3 "bulb.png" 12] 32)), w') ∧
    (c_items <$> carts w' !! "u1")
    = Some [mkCartLine "p1" 2; mkCartLine "gone" 1; mkCartLine "p2" 3].
Proof.
  destruct (getCart_skips_unresolved cart_of_three "u1"
              (mkCart "u1" [mkCartLine "p1" 2; mkCartLine "gone" 1; mkCartLine "p2" 3] 0)
              eq_refl)
    as (lines & total & w' & Hrun & Hlines & Htotal & _ & _ & _ & Hcart).
  exists w'. split.
  - rewrite Hrun, Htotal, Hlines. reflexivity.
  - rewrite Hcart. reflexivity.
Defined.

(** ** Order service: checkout *)

Section Checkout.
Import OrderService.

(** One turn of the validation loop of [POST /orders]. *)
Lemma order_items_cons item rest acc total w :
  order_items (item :: rest) acc total w
  = if default false (head (outages w)) then
      (Throw "Network Error", set_outages tail w)
    else
      match products w !! cl_productId item with
      | None => (Throw not_found_message, set_outages tail w)
      | Some product =>
        if p_stock product <? cl_quantity item then
          (Ok (inl (mkResponse 400
                 (JError ("Insufficient stock for " +:+ p_name product)))),
           set_outages tail w)
        else
          order_items rest (acc ++ [order_item item product])
                      (total + p_price product * cl_quantity item)
                      (set_outages tail w)
      end.
Proof.
  simpl. unfold ProductService.getProduct. unfold axios, transport.
  unfold bind at 1. unfold bind at 1.
  destruct (default false (head (outages w))); [reflexivity|].
  unfold bind at 1. unfold try_catch, bind at 1, get_world.
  change (products (set_outages tail w)) with (products w).
  destruct (products w !! cl_productId item) as [product|]; [|reflexivity].
  simpl. destruct (p_stock product <? cl_quantity item); reflexivity.
Qed.

(** One turn of the stock loop of [POST /orders]. *)
Lemma decrease_stock_cons item rest w :
  decrease_stock (item :: rest) w
  = if default false (head (outages w)) then
      (Throw "Network Error", set_outages tail w)
    else
      match products w !! oi_productId item with
      | None => (Throw not_found_message, set_outages tail w)
      | Some product =>
        if p_stock product <? oi_quantity item then
          (Throw bad_request_message, set_outages tail w)
        else
          decrease_stock rest
            (set_products
               (insert (oi_productId item)
                  (ProductService.with_stock
                     (p_stock product - oi_quantity item) product))
               (set_outages tail w))
      end.
Proof.
  simpl. unfold ProductService.updateStock. unfold axios, transport.
  unfold bind at 1. unfold bind at 1. unfold bind at 1.
  destruct (default false (head (outages w))); [reflexivity|].
  unfold bind at 1. unfold try_catch, bind at 1, get_world.
  change (products (set_outages tail w)) with (products w).
  destruct (products w !! oi_productId item) as [product|]; [|reflexivity].
  simpl. destruct (p_stock product <? oi_quantity item); reflexivity.
Qed.

(** [POST /orders] on a cart with lines, stage by stage. *)
Lemma createOrder_run user address cart w :
  carts w !! user = Some cart → c_items cart ≠ [] →
  createOrder user address w
  = match order_items (c_items cart) [] 0 w with
    | (Throw e, w1) => (Ok (mkResponse 500 (JError e)), w1)
    | (Ok (inl response), w1) => (Ok response, w1)
    | (Ok (inr (orderItems, total)), w1) =>
      let order := built_order user address orderItems total w1 in
      if valid_order order then
        match decrease_stock orderItems
                (set_orders (insert (_id order) order) w1) with
        | (Throw e, w2) => (Ok (mkResponse 500 (JError e)), w2)
        | (Ok _, w2) =>
          (Ok (mkResponse 201 (JOrder order)),
           notified "order_created" user (order_created user order)
                    (set_carts (delete user) w2))
        end
      else (Ok (mkResponse 500 (JError "Order validation failed")), w1)
    end.
Proof.
  intros Hcart Hitems. unfold createOrder.
  unfold try_catch, bind at 1, get_world. rewrite Hcart.
  rewrite bool_decide_eq_false_2 by exact Hitems.
  unfold bind at 1.
  destruct (order_items (c_items cart) [] 0 w) as [[[response|[orderItems total]]|e] w1];
    [reflexivity| |reflexivity].
  unfold new_Order, Order_save, Date_now, get_world.
  unfold bind at 1. unfold bind at 1. unfold bind at 1. unfold ret at 1.
  fold (built_order user address orderItems total w1).
  unfold bind at 1.
  destruct (valid_order (built_order user address orderItems total w1));
    [|reflexivity].
  unfold modify at 1. unfold bind at 1.
  destruct (decrease_stock orderItems _) as [[[]|e] w2]; [|reflexivity].
  unfold bind at 1, modify. unfold bind at 1.
  rewrite notify_absorbs. reflexivity.
Qed.

End Checkout.

Lemma same_but_transport_refl w : same_but_transport w w.
Proof. by destruct w. Qed.

Lemma same_but_transport_tail w w' :
  same_but_transport (set_outages tail w) w' → same_but_transport w w'.
Proof. unfold same_but_transport. intros ->. by destruct w. Qed.

Lemma same_but_transport_stores w w' :
  same_but_transport w w' →
  carts w' = carts w ∧ orders w' = orders w ∧ products w' = products w ∧
  notifications w' = notifications w ∧ console w' = console w ∧
  clock w' = clock w.
Proof. intros ->. by destruct w. Qed.

Section CheckoutStages.
Import OrderService.

Lemma order_items_transport cartItems : ∀ acc total w r w',
  order_items cartItems acc total w = (r, w') → same_but_transport w w'.
Proof.
  induction cartItems as [|item rest IH]; intros acc total w r w'.
  - intros [= _ <-]. apply same_but_transport_refl.
  - rewrite order_items_cons.
    destruct (default false (head (outages w))).
    { intros [= _ <-]. apply same_but_transport_tail, same_but_transport_refl. }
    destruct (products w !! cl_productId item) as [product|].
    2:{ intros [= _ <-]. apply same_but_transport_tail, same_but_transport_refl. }
    destruct (p_stock product <? cl_quantity item).
    { intros [= _ <-]. apply same_but_transport_tail, same_but_transport_refl. }
    intros H. apply same_but_transport_tail. by eapply IH.
Qed.

(** The validation loop went through: every line was found in stock and
    snapshotted. *)
Lemma order_items_inr cartItems : ∀ acc total w orderItems sum w',
  order_items cartItems acc total w = (Ok (inr (orderItems, sum)), w') →
  ∃ snapshots,
    orderItems = acc ++ snapshots ∧ sum = total + order_total snapshots ∧
    Forall2 (λ item snapshot,
               ∃ product, products w !! cl_productId item = Some product ∧
                          cl_quantity item ≤ p_stock product ∧
                          snapshot = order_item item product)
            cartItems snapshots.
Proof.
  induction cartItems as [|item rest IH]; intros acc total w orderItems sum w'.
  - intros [= <- <- _]. exists []. simpl.
    rewrite app_nil_r, Z.add_0_r. by repeat split.
  - rewrite order_items_cons.
    destruct (default false (head (outages w))); [discriminate|].
    destruct (products w !! cl_productId item) as [product|] eqn:Hp;
      [|discriminate].
    destruct (Z.ltb_spec (p_stock product) (cl_quantity item)); [discriminate|].
    intros Hrest. apply IH in Hrest as (snapshots & -> & -> & Hall).
    exists (order_item item product :: snapshots).
    split; [by rewrite <- app_assoc|]. split; [simpl; lia|].
    constructor; [by exists product | exact Hall].
Qed.

Lemma order_items_inl cartItems : ∀ acc total w response w',
  order_items cartItems acc total w = (Ok (inl response), w') →
  res_status response = 400%nat.
Proof.
  induction cartItems as [|item rest IH]; intros acc total w response w'.
  - discriminate.
  - rewrite order_items_cons.
    destruct (default false (head (outages w))); [discriminate|].
    destruct (products w !! cl_productId item) as [product|]; [|discriminate].
    destruct (p_stock product <? cl_quantity item).
    + by intros [= <- _].
    + apply IH.
Qed.

(** With the transport up, the loop stops at the first line short of
    stock. *)
Lemma order_items_first_short before : ∀ item after product acc total w,
  outages w = [] →
  Forall (in_stock w) before →
  products w !! cl_productId item = Some product →
  p_stock product < cl_quantity item →
  order_items (before ++ item :: after) acc total w
  = (Ok (inl (mkResponse 400
            (JError ("Insufficient stock for " +:+ p_name product)))), w).
Proof.
  induction before as [|first before IH];
    intros item after product acc total w Hout Hbefore Hp Hshort; simpl app;
    rewrite order_items_cons, Hout; simpl;
    rewrite (set_outages_tail_nil w Hout).
  - rewrite Hp. destruct (Z.ltb_spec (p_stock product) (cl_quantity item));
      [reflexivity | lia].
  - apply Forall_cons in Hbefore as [(p & Hfirst & Hle) Hbefore].
    rewrite Hfirst.
    destruct (Z.ltb_spec (p_stock p) (cl_quantity first)); [lia|].
    by apply IH.
Qed.

(** With the transport up and every line in stock, the loop goes
    through. *)
Lemma order_items_all_in_stock cartItems : ∀ acc total w,
  outages w = [] →
  Forall (in_stock w) cartItems →
  ∃ snapshots,
    order_items cartItems acc total w
    = (Ok (inr (acc ++ snapshots, total + order_total snapshots)), w) ∧
    Forall2 (λ item snapshot,
               ∃ product, products w !! cl_productId item = Some product ∧
                          cl_quantity item ≤ p_stock product ∧
                          snapshot = order_item item product)
            cartItems snapshots.
Proof.
  induction cartItems as [|item rest IH]; intros acc total w Hout Hall.
  - exists []. simpl. rewrite app_nil_r, Z.add_0_r. by split.
  - apply Forall_cons in Hall as [(p & Hp & Hle) Hall].
    destruct (IH (acc ++ [order_item item p])
                 (total + p_price p * cl_quantity item) w Hout Hall)
      as (snapshots & Hrun & Hsnap).
    exists (order_item item p :: snapshots). split.
    + rewrite order_items_cons, Hout. simpl.
      rewrite (set_outages_tail_nil w Hout), Hp.
      destruct (Z.ltb_spec (p_stock p) (cl_quantity item)); [lia|].
      rewrite Hrun, <- app_assoc.
      replace (total + p_price p * cl_quantity item + order_total snapshots)
        with (total + order_total (order_item item p :: snapshots))
        by (simpl; lia).
      reflexivity.
    + constructor; [by exists p | exact Hsnap].
Qed.

End CheckoutStages.

Section StockLoop.
Import OrderService.

(** The loop touches the catalog and the transport only. *)
Lemma decrease_stock_frame orderItems : ∀ w r w',
  decrease_stock orderItems w = (r, w') →
  carts w' = carts w ∧ orders w' = orders w ∧
  notifications w' = notifications w ∧ console w' = console w ∧
  clock w' = clock w.
Proof.
  induction orderItems as [|item rest IH]; intros w r w'.
  - by intros [= _ <-].
  - rewrite decrease_stock_cons.
    destruct (default false (head (outages w))); [by intros [= _ <-]|].
    destruct (products w !! oi_productId item) as [product|];
      [|by intros [= _ <-]].
    destruct (p_stock product <? oi_quantity item); [by intros [= _ <-]|].
    intros Hrest. by apply IH in Hrest.
Qed.

(** When the loop goes through, every product has lost what the order
    takes of it, and nothing else of it changed. *)
Lemma decrease_stock_done orderItems : ∀ w u w',
  decrease_stock orderItems w = (Ok u, w') →
  ∀ productId,
    products w' !! productId
    = after_order productId orderItems <$> products w !! productId.
Proof.
  induction orderItems as [|item rest IH]; intros w u w'.
  - intros [= _ <-] productId. unfold after_order. simpl.
    destruct (products w !! productId) as [[]|]; simpl; [|reflexivity].
    unfold ProductService.with_stock. simpl. by rewrite Z.sub_0_r.
  - rewrite decrease_stock_cons.
    destruct (default false (head (outages w))); [discriminate|].
    destruct (products w !! oi_productId item) as [product|] eqn:Hp;
      [|discriminate].
    destruct (p_stock product <? oi_quantity item); [discriminate|].
    intros Hrest productId. rewrite (IH _ _ _ Hrest productId). simpl.
    unfold after_order. simpl.
    destruct (String.eqb_spec (oi_productId item) productId) as [<-|Hne].
    + rewrite lookup_insert_eq, Hp. simpl.
      unfold ProductService.with_stock. simpl. do 2 f_equal. lia.
    + by rewrite lookup_insert_ne.
Qed.

(** With the transport up, the loop goes through on lines of distinct
    products that the catalog can serve. *)
Lemma decrease_stock_distinct orderItems : ∀ w,
  outages w = [] →
  NoDup (oi_productId <$> orderItems) →
  Forall (servable w) orderItems →
  ∃ w', decrease_stock orderItems w = (Ok tt, w').
Proof.
  induction orderItems as [|item rest IH]; intros w Hout Hnodup Hall.
  - by exists w.
  - apply Forall_cons in Hall as [(p & Hp & Hle) Hall].
    rewrite fmap_cons in Hnodup. apply NoDup_cons in Hnodup as [Hfirst Hnodup].
    rewrite decrease_stock_cons, Hout. simpl.
    rewrite (set_outages_tail_nil w Hout), Hp.
    destruct (Z.ltb_spec (p_stock p) (oi_quantity item)); [lia|].
    apply IH; [exact Hout | exact Hnodup |].
    apply Forall_forall. intros i Hi.
    rewrite Forall_forall in Hall. destruct (Hall i Hi) as (q & Hq & Hqle).
    exists q. split; [|exact Hqle]. simpl. rewrite lookup_insert_ne; [exact Hq|].
    intros Heq. apply Hfirst. rewrite Heq. apply list_elem_of_fmap. by exists i.
Qed.

End StockLoop.

Section CheckoutOutcome.
Import OrderService.

Lemma first_short w cartItems :
  Forall (resolves w) cartItems → ¬ Forall (in_stock w) cartItems →
  ∃ before item after product,
    cartItems = before ++ item :: after ∧ Forall (in_stock w) before ∧
    products w !! cl_productId item = Some product ∧
    p_stock product < cl_quantity item.
Proof.
  induction cartItems as [|item rest IH]; intros Hres Hnot.
  - destruct Hnot. constructor.
  - apply Forall_cons in Hres as [(p & Hp & _) Hres].
    destruct (Z.lt_ge_cases (p_stock p) (cl_quantity item)) as [Hlt|Hge].
    + exists [], item, rest, p. by repeat split.
    + destruct IH as (before & i & after & q & -> & Hbefore & Hq & Hlt);
        [exact Hres | |].
      { intros Hall. apply Hnot. constructor; [by exists p | exact Hall]. }
      exists (item :: before), i, after, q.
      split; [reflexivity|]. split; [|by split].
      constructor; [by exists p | exact Hbefore].
Qed.

Lemma snapshots_named w cartItems snapshots :
  Forall (resolves w) cartItems →
  Forall2 (λ item snapshot,
             ∃ product, products w !! cl_productId item = Some product ∧
                        cl_quantity item ≤ p_stock product ∧
                        snapshot = order_item item product)
          cartItems snapshots →
  forallb (λ i, required (oi_name i)) snapshots = true.
Proof.
  intros Hres Hsnap. induction Hsnap as [|item snapshot rest snaps Hone _ IH].
  - reflexivity.
  - apply Forall_cons in Hres as [(p & Hp & Hname) Hres].
    destruct Hone as (p' & Hp' & _ & ->). simpl.
    rewrite IH by exact Hres. rewrite andb_true_r.
    assert (p' = p) as -> by congruence.
    unfold required. by destruct (String.eqb_spec (p_name p) "").
Qed.

Lemma snapshots_lines w cartItems snapshots :
  Forall2 (λ item snapshot,
             ∃ product, products w !! cl_productId item = Some product ∧
                        cl_quantity item ≤ p_stock product ∧
                        snapshot = order_item item product)
          cartItems snapshots →
  oi_productId <$> snapshots = cl_productId <$> cartItems ∧
  oi_quantity <$> snapshots = cl_quantity <$> cartItems ∧
  Forall (in_stock w) cartItems ∧
  Forall (servable w) snapshots.
Proof.
  induction 1 as [|item snapshot rest snaps (p & Hp & Hle & ->) _ (IH1 & IH2 & IH3 & IH4)].
  - by repeat split.
  - rewrite !fmap_cons, IH1, IH2. repeat split.
    + constructor; [by exists p | exact IH3].
    + constructor; [by exists p | exact IH4].
Qed.

Lemma valid_built_order user address orderItems total w :
  valid_order (built_order user address orderItems total w)
  = forallb (λ i, required (oi_name i)) orderItems && valid_address address.
Proof.
  unfold valid_order, built_order. simpl. by rewrite !andb_true_r.
Qed.

End CheckoutOutcome.

(** C1, as the code has it. Take a cart with lines, each line's product in
    the catalog, and the transport up. When some line asks for more than
    the stock, [createOrder] answers 400 "Insufficient stock for" the name
    of the product of the first such line, and the world is the one
    before the call: no order, no stock moved, the cart as it was. When
    moreover the cart has one line per product and the shipping address
    has every required field, [createOrder] answers 201 with an order if
    and only if every line's quantity is within the stock. When the
    shipping address lacks a required field and every line is within the
    stock, [createOrder] answers 500 and the world is the one before the
    call. *)
Theorem createOrder_in_stock_iff (w : World) (user : ObjectId)
    (address : Address) (cart : Cart) :
  carts w !! user = Some cart → c_items cart ≠ [] →
  Forall (resolves w) (c_items cart) →
  outages w = [] →
  (∀ before item after product,
     c_items cart = before ++ item :: after →
     Forall (in_stock w) before →
     products w !! cl_productId item = Some product →
     p_stock product < cl_quantity item →
     OrderService.createOrder user address w
     = (Ok (mkResponse 400
              (JError ("Insufficient stock for " +:+ p_name product))), w)) ∧
  (¬ Forall (in_stock w) (c_items cart) →
   ∃ name,
     OrderService.createOrder user address w
     = (Ok (mkResponse 400 (JError ("Insufficient stock for " +:+ name))), w)) ∧
  (one_line_per_product (c_items cart) →
   OrderService.valid_address address = true →
   (Forall (in_stock w) (c_items cart) ↔
    ∃ order w',
      OrderService.createOrder user address w
      = (Ok (mkResponse 201 (JOrder order)), w'))) ∧
  (OrderService.valid_address address = false →
   Forall (in_stock w) (c_items cart) →
   ∃ message,
     OrderService.createOrder user address w
     = (Ok (mkResponse 500 (JError message)), w)).
Proof.
  intros Hcart Hlines Hres Hout.
  assert (Hshort : ∀ before item after product,
     c_items cart = before ++ item :: after →
     Forall (in_stock w) before →
     products w !! cl_productId item = Some product →
     p_stock product < cl_quantity item →
     OrderService.createOrder user address w
     = (Ok (mkResponse 400
              (JError ("Insufficient stock for " +:+ p_name product))), w)).
  { intros before item after product Hsplit Hbefore Hp Hlt.
    rewrite (createOrder_run _ _ _ _ Hcart Hlines), Hsplit.
    by rewrite (order_items_first_short before item after product [] 0 w). }
  split; [exact Hshort|]. split.
  { intros Hnot.
    destruct (first_short w _ Hres Hnot)
      as (before & item & after & product & Hsplit & Hbefore & Hp & Hlt).
    exists (p_name product). by eapply Hshort. }
  split.
  2:{ intros Haddress Hall.
      destruct (order_items_all_in_stock (c_items cart) [] 0 w Hout Hall)
        as (snapshots & Hrun & Hsnap).
      rewrite (createOrder_run _ _ _ _ Hcart Hlines), Hrun. simpl.
      rewrite valid_built_order, Haddress, andb_false_r. by eexists. }
  intros Hnodup Haddress. split.
  - intros Hall.
    destruct (order_items_all_in_stock (c_items cart) [] 0 w Hout Hall)
      as (snapshots & Hrun & Hsnap).
    rewrite (createOrder_run _ _ _ _ Hcart Hlines), Hrun. simpl.
    rewrite valid_built_order, (snapshots_named w _ _ Hres Hsnap), Haddress.
    simpl.
    destruct (snapshots_lines w _ _ Hsnap) as (Hids & _ & _ & Hserve).
    edestruct (decrease_stock_distinct snapshots) as (w2 & ->);
      [| |exact Hserve| ]; [exact Hout | by rewrite Hids |].
    by eexists _, _.
  - intros (order & w' & Hrun).
    rewrite (createOrder_run _ _ _ _ Hcart Hlines) in Hrun.
    destruct (OrderService.order_items (c_items cart) [] 0 w)
      as [[[response|[orderItems total]]|e] w1] eqn:Hloop.
    + apply order_items_inl in Hloop. injection Hrun as -> _.
      discriminate.
    + apply order_items_inr in Hloop as (snapshots & _ & _ & Hsnap).
      by destruct (snapshots_lines w _ _ Hsnap) as (_ & _ & Hin & _).
    + discriminate.
Qed.

Lemma createOrder_in_stock_iff_witness :
  (∃ order w',
     OrderService.createOrder "u1" home checkout_world
     = (Ok (mkResponse 201 (JOrder order)), w')) ∧
  let short := set_products (alter (ProductService.with_stock 1) "p1")
                            checkout_world in
  OrderService.createOrder "u1" home short
  = (Ok (mkResponse 400 (JError "Insufficient stock for Lamp")), short).
Proof.
  split.
  - assert (Hres : Forall (resolves checkout_world) [mkCartLine "p1" 2]).
    { constructor; [|constructor]. eexists.
      split; [reflexivity | discriminate]. }
    destruct (createOrder_in_stock_iff checkout_world "u1" home
                (mkCart "u1" [mkCartLine "p1" 2] 0)
                eq_refl ltac:(discriminate) Hres eq_refl) as (_ & _ & Hiff & _).
    apply Hiff; [apply NoDup_singleton | reflexivity |].
    constructor; [|constructor]. eexists. split; [reflexivity | simpl; lia].
  - intros short.
    assert (Hres : Forall (resolves short) [mkCartLine "p1" 2]).
    { constructor; [|constructor]. eexists.
      split; [reflexivity | discriminate]. }
    destruct (createOrder_in_stock_iff short "u1" home
                (mkCart "u1" [mkCartLine "p1" 2] 0)
                eq_refl ltac:(discriminate) Hres eq_refl) as (Hshort & _ & _).
    apply (Hshort [] (mkCartLine "p1" 2) []
                  (mkProduct "p1" "Lamp" 10 "lamp.png" 1));
      [reflexivity | constructor | reflexivity | simpl; lia].
Defined.

(** C1 as stated fails: the only line of the cart is within the stock of
    its product, which the catalog has, and yet [createOrder] does not
    succeed, for the shipping address lacks its zip code. *)
Lemma createOrder_in_stock_yet_rejected :
  let address := mkAddress "Ann" "1 Main St" "Town" "ST" "" "US" "" in
  carts checkout_world !! "u1" = Some (mkCart "u1" [mkCartLine "p1" 2] 0) ∧
  Forall (in_stock checkout_world) [mkCartLine "p1" 2] ∧
  OrderService.createOrder "u1" address checkout_world
  = (Ok (mkResponse 500 (JError "Order validation failed")), checkout_world) ∧
  ¬ ∃ order w',
      OrderService.createOrder "u1" address checkout_world
      = (Ok (mkResponse 201 (JOrder order)), w').
Proof.
  intros address. split; [reflexivity|]. split.
  { constructor; [|constructor]. eexists. split; [reflexivity | simpl; lia]. }
  assert (Hrun : OrderService.createOrder "u1" address checkout_world
                 = (Ok (mkResponse 500 (JError "Order validation failed")),
                    checkout_world)) by (vm_compute; reflexivity).
  split; [exact Hrun|]. intros (order & w' & H). rewrite Hrun in H. discriminate.
Qed.

(** ** Order service: a checkout that succeeded *)

Lemma fresh_order_id (w : World) : orders w !! fresh (dom (orders w)) = None.
Proof. apply not_elem_of_dom, is_fresh. Qed.

(** C2. After [createOrder] answered 201 with an order: the user has no
    cart any more; the order is stored under its id, which is new; it is
    the user's, to the address given, with one line per line of the cart
    carrying the name, price and image the catalog had; its [totalAmount]
    is the sum over its lines of price times quantity; its [status] and
    [paymentStatus] are "pending"; and every product of the catalog has
    lost the quantity the order takes of it, nothing else of it changed. *)
Theorem createOrder_success (w w' : World) (user : ObjectId)
    (address : Address) (order : Order) :
  OrderService.createOrder user address w
  = (Ok (mkResponse 201 (JOrder order)), w') →
  carts w' !! user = None ∧
  orders w !! _id order = None ∧ orders w' !! _id order = Some order ∧
  userId order = user ∧ shippingAddress order = address ∧
  totalAmount order = order_total (items order) ∧
  status order = "pending" ∧ paymentStatus order = "pending" ∧
  (∃ cart, carts w !! user = Some cart ∧
     Forall2 (λ item line,
                ∃ product, products w !! cl_productId item = Some product ∧
                           cl_quantity item ≤ p_stock product ∧
                           line = order_item item product)
             (c_items cart) (items order)) ∧
  (∀ productId,
     products w' !! productId
     = after_order productId (items order) <$> products w !! productId).
Proof.
  intros Hrun.
  destruct (carts w !! user) as [cart|] eqn:Hcart;
    [|by rewrite createOrder_no_cart in Hrun].
  destruct (decide (c_items cart = [])) as [Hnil|Hlines];
    [by rewrite (createOrder_no_lines _ _ _ _ Hcart Hnil) in Hrun|].
  rewrite (createOrder_run _ _ _ _ Hcart Hlines) in Hrun.
  destruct (OrderService.order_items (c_items cart) [] 0 w)
    as [[[response|[orderItems total]]|e] w1] eqn:Hloop; [| |discriminate].
  { apply order_items_inl in Hloop. injection Hrun as -> _. discriminate. }
  pose proof (order_items_transport _ _ _ _ _ _ Hloop) as Hsame.
  apply same_but_transport_stores in Hsame as (Hc1 & Ho1 & Hp1 & _).
  apply order_items_inr in Hloop as (snapshots & Hitems & Htotal & Hsnap).
  simpl in Hitems, Htotal. subst orderItems total.
  simpl in Hrun.
  destruct (OrderService.valid_order _); [|discriminate].
  destruct (OrderService.decrease_stock snapshots _) as [[[]|e] w2] eqn:Hdec;
    [|discriminate].
  injection Hrun as <- <-.
  pose proof (decrease_stock_frame _ _ _ _ Hdec) as (Hc2 & Ho2 & _).
  pose proof (decrease_stock_done _ _ _ _ Hdec) as Hp2.
  match goal with |- context [notified ?t ?u ?m ?x] =>
    destruct (notified_stores t u m x) as (Hc & Ho & Hp) end.
  rewrite Hc, Ho, Hp. simpl. rewrite Ho2. simpl.
  split; [apply lookup_delete_eq|].
  split; [rewrite <- Ho1; apply fresh_order_id|].
  split; [apply lookup_insert_eq|].
  do 5 (split; [reflexivity|]).
  split; [by exists cart|].
  intros productId. rewrite Hp2. simpl. by rewrite Hp1.
Qed.

Lemma createOrder_success_witness :
  let order := mkOrder "0" "u1" [mkOrderItem "p1" "Lamp" 10 2 "lamp.png"] 20
                       "pending" "pending" None home None 100 100 in
  ∃ w',
    OrderService.createOrder "u1" home checkout_world
    = (Ok (mkResponse 201 (JOrder order)), w') ∧
    carts w' !! "u1" = None ∧ orders w' !! "0" = Some order ∧
    totalAmount order = 20 ∧
    p_stock <$> products w' !! "p1" = Some 3.
Proof.
  intros order.
  destruct (OrderService.createOrder "u1" home checkout_world) as [r w'] eqn:Hrun.
  assert (Hr : r = Ok (mkResponse 201 (JOrder order))).
  { apply (f_equal fst) in Hrun. vm_compute in Hrun. by subst r. }
  subst r. exists w'. split; [reflexivity|].
  destruct (createOrder_success checkout_world w' "u1" home order Hrun)
    as (Hcart & _ & Hstored & _ & _ & Htotal & _ & _ & _ & Hstock).
  split; [exact Hcart|]. split; [exact Hstored|]. split; [exact Htotal|].
  rewrite Hstock. reflexivity.
Defined.

(** ** Order service: failures after the order is stored *)




(** ** Order service: adding to the cart *)

Section Upsert.
Import OrderService.

Lemma find_same_product_None productId cartItems :
  productId ∉ cl_productId <$> cartItems →
  find (same_product productId) cartItems = None.
Proof.
  induction cartItems as [|item rest IH]; simpl; [reflexivity|].
  rewrite not_elem_of_cons. intros [Hne Hrest]. unfold same_product at 1.
  destruct (String.eqb_spec (cl_productId item) productId); [congruence|].
  by apply IH.
Qed.

Lemma find_same_product_Some productId cartItems :
  productId ∈ cl_productId <$> cartItems →
  is_Some (find (same_product productId) cartItems).
Proof.
  induction cartItems as [|item rest IH]; simpl.
  - intros H. by apply elem_of_nil in H.
  - unfold same_product at 1.
    destruct (String.eqb_spec (cl_productId item) productId) as [|Hne];
      [by eexists|].
    intros [Heq|Hin]%elem_of_cons; [congruence | by apply IH].
Qed.

Lemma add_quantity_ids productId quantity cartItems :
  cl_productId <$> add_quantity productId quantity cartItems
  = cl_productId <$> cartItems.
Proof.
  induction cartItems as [|item rest IH]; [reflexivity|].
  simpl add_quantity.
  destruct (same_product productId item); rewrite !fmap_cons;
    [reflexivity | by rewrite IH].
Qed.

Lemma add_quantity_first productId quantity before : ∀ item after,
  cl_productId item = productId →
  productId ∉ cl_productId <$> before →
  add_quantity productId quantity (before ++ item :: after)
  = before ++ mkCartLine productId (cl_quantity item + quantity) :: after.
Proof.
  induction before as [|first before IH]; intros item after Hitem Hbefore; simpl.
  - unfold same_product.
    destruct (String.eqb_spec (cl_productId item) productId); [|congruence].
    by rewrite Hitem.
  - rewrite fmap_cons, not_elem_of_cons in Hbefore.
    destruct Hbefore as [Hne Hbefore]. unfold same_product at 1.
    destruct (String.eqb_spec (cl_productId first) productId); [congruence|].
    by rewrite IH.
Qed.

(** The line of a cart is found when one carries the id as the request
    spells it. *)
Lemma upsert_found productId quantity cartItems :
  productId ∈ cl_productId <$> cartItems →
  upsert productId quantity cartItems
  = Some (add_quantity productId quantity cartItems).
Proof.
  intros Hin. unfold upsert.
  by destruct (find_same_product_Some _ _ Hin) as [existing ->].
Qed.

Lemma upsert_pushed productId stored quantity cartItems :
  castObjectId productId = Some stored →
  productId ∉ cl_productId <$> cartItems →
  upsert productId quantity cartItems
  = Some (cartItems ++ [mkCartLine stored quantity]).
Proof.
  intros Hcast Hout. unfold upsert.
  by rewrite find_same_product_None, Hcast.
Qed.

(** The ids of a cart are ObjectIds, so a spelling that is not the
    ObjectId it casts to is the id of no line. *)
Lemma other_spelling_not_found productId stored cartItems :
  castObjectId productId = Some stored → productId ≠ stored →
  Forall is_ObjectId (cl_productId <$> cartItems) →
  productId ∉ cl_productId <$> cartItems.
Proof.
  intros Hcast Hne Hids Hin. rewrite Forall_forall in Hids.
  specialize (Hids _ Hin). unfold is_ObjectId in Hids. congruence.
Qed.

Lemma found_spelling_is_stored productId stored cartItems :
  castObjectId productId = Some stored →
  Forall is_ObjectId (cl_productId <$> cartItems) →
  productId ∈ cl_productId <$> cartItems → productId = stored.
Proof.
  intros Hcast Hids Hin. rewrite Forall_forall in Hids.
  specialize (Hids _ Hin). unfold is_ObjectId in Hids. congruence.
Qed.

(** [POST /cart/add], case by case. *)
Lemma addItem_run user productId quantity w :
  addItem user productId quantity w
  = if default false (head (outages w)) then
      (Ok (mkResponse 500 (JError "Network Error")), set_outages tail w)
    else
      match castObjectId productId with
      | None =>
        (Ok (mkResponse 500 (JError server_error_message)), set_outages tail w)
      | Some stored =>
        match products w !! stored with
        | None =>
          (Ok (mkResponse 500 (JError not_found_message)), set_outages tail w)
        | Some _ =>
          match upsert productId (default 1 quantity) (cart_lines user w) with
          | Some cartItems =>
            (Ok (mkResponse 200
                   (JCartSaved "Product added to cart"
                      (saved_cart user cartItems w))),
             set_carts (insert user (saved_cart user cartItems w))
                       (set_outages tail w))
          | None =>
            (Ok (mkResponse 500 (JError "Cart validation failed")),
             set_outages tail w)
          end
        end
      end.
Proof.
  unfold addItem, ProductService.getProductById, ProductService.getProduct,
    saved_cart, cart_lines. run.
  destruct (default false (head (outages w))); [reflexivity|]. simpl.
  destruct (castObjectId productId) as [stored|]; [|reflexivity]. simpl.
  destruct (products w !! stored); [|reflexivity]. simpl.
  destruct (carts w !! user) as [cart|]; simpl;
    by destruct (upsert productId (default 1 quantity) _).
Qed.

Lemma getCart_carts user w : carts (snd (getCart user w)) = carts w.
Proof.
  unfold getCart. unfold try_catch, bind at 1, get_world.
  destruct (carts w !! user) as [cart|]; [|reflexivity].
  destruct (cart_details_run (c_items cart) [] 0 w) as (w' & Hs & Hrun).
  unfold bind. rewrite Hrun. simpl. by destruct Hs as (-> & _).
Qed.

Lemma createOrder_carts user address w :
  carts (snd (createOrder user address w)) = carts w ∨
  carts (snd (createOrder user address w)) = delete user (carts w).
Proof.
  destruct (carts w !! user) as [cart|] eqn:Hcart;
    [|left; by rewrite createOrder_no_cart].
  destruct (decide (c_items cart = [])) as [Hnil|Hlines];
    [left; by rewrite (createOrder_no_lines _ _ _ _ Hcart Hnil)|].
  rewrite (createOrder_run _ _ _ _ Hcart Hlines).
  destruct (order_items (c_items cart) [] 0 w)
    as [[[response|[orderItems total]]|e] w1] eqn:Hloop;
    pose proof (order_items_transport _ _ _ _ _ _ Hloop) as Hsame;
    apply same_but_transport_stores in Hsame as (Hc1 & _);
    [by left | | by left].
  cbv beta iota zeta. destruct (valid_order _); [|by left].
  destruct (decrease_stock orderItems _) as [[[]|e] w2] eqn:Hdec;
    pose proof (decrease_stock_frame _ _ _ _ Hdec) as (Hc2 & _).
  - right. unfold snd.
    match goal with |- context [notified ?t ?u ?m ?x] =>
      destruct (notified_stores t u m x) as (-> & _) end.
    simpl. rewrite Hc2. simpl. by rewrite Hc1.
  - left. simpl. rewrite Hc2. simpl. exact Hc1.
Qed.

Lemma updateStatus_carts id user newStatus w :
  carts (snd (updateStatus id user newStatus w)) = carts w.
Proof.
  destruct (Order_findOne id user w) as [o|] eqn:Hfind.
  - rewrite (updateStatus_found _ _ _ _ _ Hfind). unfold snd.
    match goal with |- context [notified ?t ?u ?m ?x] =>
      destruct (notified_stores t u m x) as (-> & _) end.
    reflexivity.
  - by rewrite (updateStatus_missing _ _ _ _ Hfind).
Qed.

End Upsert.

(** C5, where the code departs from it. The lines of a cart carry
    ObjectIds, which print in lower case, and [addItem] looks for the line
    of the product by comparing that print with the string of the body as
    it was sent. So when the body spells the id of a product of the cart
    otherwise (in upper case) and the lookup of the product resolves,
    [addItem] answers 200 and appends a second line for that product: the
    cart no longer has one line per product. *)
Theorem addItem_other_spelling_adds_line (w : World) (user : ObjectId)
    (productId : string) (stored : ObjectId) (quantity : option Z) :
  castObjectId productId = Some stored → productId ≠ stored →
  default false (head (outages w)) = false →
  is_Some (products w !! stored) →
  Forall is_ObjectId (cl_productId <$> cart_lines user w) →
  stored ∈ cl_productId <$> cart_lines user w →
  ∃ cart w',
    OrderService.addItem user productId quantity w
    = (Ok (mkResponse 200 (JCartSaved "Product added to cart" cart)), w') ∧
    carts w' !! user = Some cart ∧
    c_items cart
    = cart_lines user w ++ [mkCartLine stored (default 1 quantity)] ∧
    ¬ one_line_per_product (c_items cart).
Proof.
  intros Hcast Hne Hup [product Hp] Hids Hin.
  rewrite addItem_run, Hup, Hcast, Hp.
  rewrite (upsert_pushed productId stored _ _ Hcast)
    by (by eapply other_spelling_not_found).
  eexists _, _. split; [reflexivity|]. simpl.
  split; [apply lookup_insert_eq|]. split; [reflexivity|].
  unfold one_line_per_product. rewrite fmap_app. simpl.
  intros Hnodup. apply NoDup_app in Hnodup as (_ & Hdisjoint & _).
  apply (Hdisjoint stored Hin). apply list_elem_of_here.
Qed.

Lemma addItem_other_spelling_adds_line_witness :
  let w0 := set_carts (λ _, ∅) lamp_shop in
  let w1 := snd (OrderService.addItem ann_id lamp_id (Some 2) w0) in
  let w2 := snd (OrderService.addItem ann_id lamp_ID (Some 3) w1) in
  c_items <$> carts w1 !! ann_id = Some [mkCartLine lamp_id 2] ∧
  c_items <$> carts w2 !! ann_id
  = Some [mkCartLine lamp_id 2; mkCartLine lamp_id 3].
Proof.
  intros w0 w1 w2. split; [reflexivity|].
  destruct (addItem_other_spelling_adds_line w1 ann_id lamp_ID lamp_id (Some 3))
    as (cart & w' & Hrun & Hcart & Hlines & _).
  - reflexivity.
  - discriminate.
  - reflexivity.
  - by eexists.
  - repeat constructor.
  - apply list_elem_of_here.
  - unfold w2. rewrite Hrun. simpl. rewrite Hcart. simpl. by rewrite Hlines.
Defined.

(** * Further properties *)

(** ** Product service: stock updates and reads *)

Lemma with_stock_same (p : Product) : ProductService.with_stock (p_stock p) p = p.
Proof. by destruct p. Qed.

Lemma set_products_insert_same (w : World) (id : ObjectId) (p : Product) :
  products w !! id = Some p → set_products (insert id p) w = w.
Proof.
  intros H. destruct w as [c o ps n out co cl]. unfold set_products. simpl in *.
  by rewrite insert_id.
Qed.

Lemma getProduct_run (id : ObjectId) (w : World) :
  ProductService.getProduct id w
  = (Ok match products w !! id with
        | None => mkResponse 404 (JError "Product not found")
        | Some product => mkResponse 200 (JProduct product)
        end, w).
Proof.
  unfold ProductService.getProduct. run. by destruct (products w !! id).
Qed.

(** X1. A stock update whose operation is neither "decrease" nor
    "increase" is not refused: on a product of the catalog it answers 200
    "Stock updated" with the stock the product has, and the world is the
    one before the call. *)
Theorem updateStock_other_operation (w : World) (id : ObjectId) (quantity : Z)
    (operation : string) (product : Product) :
  products w !! id = Some product →
  operation ≠ "decrease" → operation ≠ "increase" →
  ProductService.updateStock id quantity operation w
  = (Ok (mkResponse 200 (JStock "Stock updated" (p_stock product))), w).
Proof.
  intros Hp Hdec Hinc. unfold ProductService.updateStock. run. rewrite Hp. simpl.
  destruct (String.eqb_spec operation "decrease"); [contradiction|].
  destruct (String.eqb_spec operation "increase"); [contradiction|].
  simpl. by rewrite (set_products_insert_same w id product Hp).
Qed.

Lemma updateStock_other_operation_witness :
  ProductService.updateStock "p1" 4 "reserve" checkout_world
  = (Ok (mkResponse 200 (JStock "Stock updated" 5)), checkout_world).
Proof.
  apply (updateStock_other_operation checkout_world "p1" 4 "reserve"
           (mkProduct "p1" "Lamp" 10 "lamp.png" 5));
    [reflexivity | discriminate | discriminate].
Defined.

(** X2. Stock updates undo each other on the integers a [Number] holds
    exactly: on a product of the catalog, with the stock, the quantity
    and the stock in between all such integers, a decrease the stock
    allows followed by an increase of the same quantity gives back the
    world before the two calls, and so does an increase followed by a
    decrease of the same quantity when the stock was not negative. *)
Theorem updateStock_round_trip (w : World) (id : ObjectId) (quantity : Z)
    (product : Product) :
  products w !! id = Some product →
  safe_integer (p_stock product) → safe_integer quantity →
  (quantity ≤ p_stock product →
   safe_integer (p_stock product - quantity) →
   ProductService.updateStock id quantity "increase"
     (snd (ProductService.updateStock id quantity "decrease" w))
   = (Ok (mkResponse 200 (JStock "Stock updated" (p_stock product))), w)) ∧
  (0 ≤ p_stock product →
   safe_integer (p_stock product + quantity) →
   ProductService.updateStock id quantity "decrease"
     (snd (ProductService.updateStock id quantity "increase" w))
   = (Ok (mkResponse 200 (JStock "Stock updated" (p_stock product))), w)).
Proof.
  intros Hp _ _. split.
  - intros Hle _. rewrite (updateStock_decrease_ok w id quantity product Hp Hle).
    unfold snd.
    erewrite updateStock_increase by (simpl; apply lookup_insert_eq).
    simpl. replace (p_stock product - quantity + quantity) with (p_stock product) by lia.
    do 2 f_equal. destruct w as [c o ps n out co cl]. unfold set_products.
    simpl in *. rewrite insert_insert_eq.
    unfold ProductService.with_stock. simpl.
    replace (mkProduct _ _ _ _ _) with product by (by destruct product).
    by rewrite insert_id.
  - intros Hnn _. rewrite (updateStock_increase w id quantity product Hp).
    unfold snd.
    erewrite updateStock_decrease_ok;
      [|simpl; apply lookup_insert_eq | simpl; lia].
    simpl. replace (p_stock product + quantity - quantity) with (p_stock product) by lia.
    do 2 f_equal. destruct w as [c o ps n out co cl]. unfold set_products.
    simpl in *. rewrite insert_insert_eq.
    unfold ProductService.with_stock. simpl.
    replace (mkProduct _ _ _ _ _) with product by (by destruct product).
    by rewrite insert_id.
Qed.

Lemma updateStock_round_trip_witness :
  ProductService.updateStock "p1" 2 "increase"
    (snd (ProductService.updateStock "p1" 2 "decrease" checkout_world))
  = (Ok (mkResponse 200 (JStock "Stock updated" 5)), checkout_world) ∧
  ProductService.updateStock "p1" 9 "decrease"
    (snd (ProductService.updateStock "p1" 9 "increase" checkout_world))
  = (Ok (mkResponse 200 (JStock "Stock updated" 5)), checkout_world).
Proof.
  assert (Hsafe : ∀ n, 0 ≤ n ≤ 100 → safe_integer n)
    by (unfold safe_integer; lia).
  split.
  - apply (updateStock_round_trip checkout_world "p1" 2
             (mkProduct "p1" "Lamp" 10 "lamp.png" 5) eq_refl);
      [apply Hsafe; simpl; lia | apply Hsafe; lia | simpl; lia
      | apply Hsafe; simpl; lia].
  - apply (updateStock_round_trip checkout_world "p1" 9
             (mkProduct "p1" "Lamp" 10 "lamp.png" 5) eq_refl);
      [apply Hsafe; simpl; lia | apply Hsafe; lia | simpl; lia
      | apply Hsafe; simpl; lia].
Defined.

(** X3. What a stock update answers can be read back: after an answer
    200 with [newStock], [GET /products/:id] answers 200 with the product
    whose stock is [newStock], its id, name, price and image as before,
    and no other product of the catalog has changed. Reading a product
    never changes the world. *)
Theorem updateStock_read_back (w w' : World) (id : ObjectId) (quantity : Z)
    (operation message : string) (newStock : Z) :
  ProductService.updateStock id quantity operation w
  = (Ok (mkResponse 200 (JStock message newStock)), w') →
  ∃ before after,
    products w !! id = Some before ∧
    ProductService.getProduct id w'
    = (Ok (mkResponse 200 (JProduct after)), w') ∧
    after = ProductService.with_stock newStock before ∧
    ∀ other, other ≠ id → products w' !! other = products w !! other.
Proof.
  intros Hrun.
  pose proof (updateStock_products w id quantity operation) as Hps.
  rewrite Hrun in Hps. simpl in Hps.
  unfold ProductService.updateStock in Hrun. run.
  destruct (products w !! id) as [before|] eqn:Hp; [|discriminate].
  exists before, (ProductService.with_stock newStock before).
  split; [reflexivity|]. rewrite getProduct_run, Hps.
  simpl in Hrun.
  destruct (String.eqb operation "decrease").
  - destruct (p_stock before <? quantity); [discriminate|].
    injection Hrun as _ <- _. rewrite lookup_insert_eq.
    split; [reflexivity|]. split; [reflexivity|].
    intros other Hne. by rewrite lookup_insert_ne.
  - destruct (String.eqb operation "increase").
    + injection Hrun as _ <- _. rewrite lookup_insert_eq.
      split; [reflexivity|]. split; [reflexivity|].
      intros other Hne. by rewrite lookup_insert_ne.
    + injection Hrun as _ <- _. rewrite lookup_insert_eq, with_stock_same.
      split; [reflexivity|]. split; [reflexivity|].
      intros other Hne. by rewrite lookup_insert_ne.
Qed.

Lemma updateStock_read_back_witness :
  ∃ w',
    ProductService.updateStock "p1" 2 "decrease" checkout_world
    = (Ok (mkResponse 200 (JStock "Stock updated" 3)), w') ∧
    ProductService.getProduct "p1" w'
    = (Ok (mkResponse 200 (JProduct (mkProduct "p1" "Lamp" 10 "lamp.png" 3))), w').
Proof.
  destruct (ProductService.updateStock "p1" 2 "decrease" checkout_world)
    as [r w'] eqn:Hrun.
  assert (Hr : r = Ok (mkResponse 200 (JStock "Stock updated" 3))).
  { apply (f_equal fst) in Hrun. vm_compute in Hrun. by subst r. }
  subst r. exists w'. split; [reflexivity|].
  destruct (updateStock_read_back checkout_world w' "p1" 2 "decrease"
              "Stock updated" 3 Hrun) as (before & after & Hb & Hget & -> & _).
  injection Hb as <-. exact Hget.
Defined.

(** ** Product service: creating a product *)

Lemma fresh_product_id (w : World) : products w !! fresh (dom (products w)) = None.
Proof. apply not_elem_of_dom, is_fresh. Qed.

(** X4. [POST /products]. A body lacking its name, description, price or
    category is answered 400 and the world is the one before the call.
    Any other body is answered 201 with the product created: it is stored
    under an id the catalog did not have, with stock 0 and the
    placeholder image unless the body gives them; no other product
    changes; and [GET /products/:id] on its id answers with it. *)
Theorem createProduct_contract (w : World) (body : ProductBody) :
  (valid_product_body body = false →
   createProduct body w
   = (Ok (mkResponse 400 (JError "Product validation failed")), w)) ∧
  (valid_product_body body = true →
   ∃ product w',
     createProduct body w = (Ok (mkResponse 201 (JProduct product)), w') ∧
     products w !! p_id product = None ∧
     products w' = <[p_id product := product]> (products w) ∧
     p_name product = b_name body ∧
     Some (p_price product) = b_price body ∧
     p_stock product = default 0 (b_stock body) ∧
     p_image product = default placeholder_image (b_image body) ∧
     ProductService.getProduct (p_id product) w'
     = (Ok (mkResponse 200 (JProduct product)), w')).
Proof.
  split; intros Hvalid; unfold createProduct; run; rewrite Hvalid; simpl.
  - reflexivity.
  - eexists _, _. split; [reflexivity|]. simpl.
    split; [apply fresh_product_id|]. split; [reflexivity|].
    split; [reflexivity|]. split.
    { unfold valid_product_body in Hvalid.
      destruct (b_price body); [reflexivity|].
      rewrite bool_decide_eq_false_2 in Hvalid by (by intros [? ?]).
      by rewrite !andb_false_r in Hvalid. }
    split; [reflexivity|]. split; [reflexivity|].
    rewrite getProduct_run. simpl. by rewrite lookup_insert_eq.
Qed.

Lemma createProduct_contract_witness :
  createProduct (mkProductBody "Desk" "" (Some 120) "Home" None None) checkout_world
  = (Ok (mkResponse 400 (JError "Product validation failed")), checkout_world) ∧
  ∃ product w',
    createProduct (mkProductBody "Desk" "Oak desk" (Some 120) "Home" None None)
                  checkout_world
    = (Ok (mkResponse 201 (JProduct product)), w') ∧
    p_stock product = 0 ∧ p_image product = placeholder_image ∧
    ProductService.getProduct (p_id product) w'
    = (Ok (mkResponse 200 (JProduct product)), w').
Proof.
  split.
  - destruct (createProduct_contract checkout_world
                (mkProductBody "Desk" "" (Some 120) "Home" None None)) as [H _].
    apply H. reflexivity.
  - destruct (createProduct_contract checkout_world
                (mkProductBody "Desk" "Oak desk" (Some 120) "Home" None None))
      as [_ H].
    destruct (H eq_refl) as (product & w' & Hrun & _ & _ & _ & _ & Hs & Hi & Hget).
    exists product, w'. by repeat split.
Defined.

(** ** Order service: authentication *)

Lemma split_on_absent (c : Ascii.ascii) (s : string) :
  has_char c s = false → split_on c s = [s].
Proof.
  induction s as [|a s IH]; simpl; [reflexivity|].
  destruct (Ascii.eqb a c); [discriminate|]. simpl. intros H.
  by rewrite (IH H).
Qed.

Lemma split_on_first (c : Ascii.ascii) (before after : string) :
  has_char c before = false →
  split_on c (before +:+ String c after) = before :: split_on c after.
Proof.
  induction before as [|a s IH]; simpl.
  - intros _. by rewrite Ascii.eqb_refl.
  - destruct (Ascii.eqb a c); [discriminate|]. simpl. intros H.
    by rewrite (IH H).
Qed.

(** X5. The token of a request is what follows the first space of its
    [Authorization] header, up to the next space: a header made of a
    scheme, a space and a token, neither with a space in it, gives the
    token; a request without the header, or whose header has no space,
    has no token. *)
Theorem bearer_token_parses (scheme token : string) :
  has_char Ascii.Space scheme = false →
  has_char Ascii.Space token = false →
  bearer_token (Some (scheme +:+ " " +:+ token)) = Some token ∧
  bearer_token (Some scheme) = None ∧
  bearer_token None = None.
Proof.
  intros Hscheme Htoken. unfold bearer_token. split; [|split; [|reflexivity]].
  - change (" " +:+ token) with (String Ascii.Space token).
    by rewrite split_on_first, split_on_absent.
  - by rewrite split_on_absent.
Qed.

Lemma bearer_token_parses_witness :
  bearer_token (Some "Bearer t0k3n") = Some "t0k3n" ∧
  bearer_token (Some "Bearer") = None.
Proof.
  destruct (bearer_token_parses "Bearer" "t0k3n" eq_refl eq_refl) as (H1 & H2 & _).
  split; [exact H1 | exact H2].
Defined.

Lemma axios_data_ret {A} (answer : nat * A) (w : World) :
  axios_data (ret answer) w
  = if default false (head (outages w)) then
      (Throw "Network Error", set_outages tail w)
    else if Nat.leb 200 (fst answer) && Nat.ltb (fst answer) 300 then
      (Ok (snd answer), set_outages tail w)
    else
      (Throw ("Request failed with status code " +:+ pretty (fst answer)),
       set_outages tail w).
Proof.
  unfold axios_data, transport, bind, ret, throw, is_2xx. cbn [res_status].
  destruct (default false (head (outages w))); [reflexivity|].
  by destruct (Nat.leb 200 (fst answer) && Nat.ltb (fst answer) 300).
Qed.

(** [verifyUser], case by case. *)
Lemma verifyUser_run (userService : UserService)
    (authorization : option string) (next : User → M Response) (w : World) :
  verifyUser userService authorization next w
  = let answer := userService (bearer_token authorization) in
    if default false (head (outages w)) then
      (Ok (mkResponse 401 (JError "Authentication failed")), set_outages tail w)
    else if Nat.leb 200 (fst answer) && Nat.ltb (fst answer) 300 then
      if ad_valid (snd answer) then next (ad_user (snd answer)) (set_outages tail w)
      else (Ok (mkResponse 401 (JError "Invalid token")), set_outages tail w)
    else
      (Ok (mkResponse 401 (JError "Authentication failed")), set_outages tail w).
Proof.
  unfold verifyUser. unfold bind at 1. unfold try_catch. unfold bind at 1.
  rewrite axios_data_ret. cbv zeta.
  destruct (default false (head (outages w))); [reflexivity|].
  destruct (Nat.leb 200 _ && Nat.ltb _ 300); [|reflexivity].
  by destruct (ad_valid _).
Qed.

(** X6. No route of the order service runs its handler unless the user
    service vouches for the request. When the call to the user service
    fails, or is answered outside of 2xx, or says the token is not valid,
    the route answers 401 and nothing but that call has happened: carts,
    orders, catalog, notifications and console are as before. Otherwise
    the route is its handler, run for the user the user service named. *)
Theorem serve_guard (userService : UserService)
    (authorization : option string) (e : Endpoint) (w : World) :
  (validates userService authorization w = false →
   ∃ message,
     serve userService authorization e w
     = (Ok (mkResponse 401 (JError message)), set_outages tail w)) ∧
  (validates userService authorization w = true →
   serve userService authorization e w
   = handle (as_request
               (u_userId (ad_user (snd (userService (bearer_token authorization)))))
               e)
            (set_outages tail w)).
Proof.
  unfold validates, serve. rewrite verifyUser_run.
  destruct (userService (bearer_token authorization)) as [code [ok user]].
  cbn [fst snd ad_valid ad_user].
  destruct (default false (head (outages w))), (Nat.leb 200 code),
    (Nat.ltb code 300), ok; cbn [negb andb];
    split; intros H; try discriminate H; try reflexivity; by eexists.
Qed.

Lemma serve_guard_witness :
  serve one_user (Some "Bearer stolen") (OrdersPost home) checkout_world
  = (Ok (mkResponse 401 (JError "Invalid token")), checkout_world) ∧
  serve one_user (Some "Bearer t0k3n") OrdersGet checkout_world
  = OrderService.listOrders "u1" checkout_world.
Proof.
  destruct (serve_guard one_user (Some "Bearer stolen") (OrdersPost home)
              checkout_world) as [Hno _].
  destruct (serve_guard one_user (Some "Bearer t0k3n") OrdersGet checkout_world)
    as [_ Hyes].
  split.
  - destruct (Hno eq_refl) as (message & Hrun).
    pose proof Hrun as Hmessage. vm_compute in Hmessage.
    injection Hmessage as Hmessage. rewrite Hrun, <- Hmessage. reflexivity.
  - exact (Hyes eq_refl).
Defined.

(** ** Order service: the cart *)




Section CartAlgebra.
Import OrderService.

Lemma same_product_added productId quantity item :
  same_product productId item = true →
  same_product productId
    (mkCartLine (cl_productId item) (cl_quantity item + quantity)) = true.
Proof. exact id. Qed.

Lemma add_quantity_twice productId a b cartItems :
  add_quantity productId b (add_quantity productId a cartItems)
  = add_quantity productId (a + b) cartItems.
Proof.
  induction cartItems as [|item rest IH]; [reflexivity|]. simpl.
  destruct (same_product productId item) eqn:Hsame; simpl.
  - rewrite (same_product_added _ _ _ Hsame). f_equal. f_equal. lia.
  - by rewrite Hsame, IH.
Qed.

(** Upserting twice under the spelling ObjectIds print in. *)
Lemma upsert_twice productId a b cartItems :
  is_ObjectId productId →
  upsert productId a cartItems ≫= upsert productId b
  = upsert productId (a + b) cartItems.
Proof.
  intros Hid.
  destruct (decide (productId ∈ cl_productId <$> cartItems)) as [Hin|Hout].
  - rewrite !upsert_found by exact Hin. simpl.
    rewrite upsert_found by (by rewrite add_quantity_ids).
    by rewrite add_quantity_twice.
  - rewrite !(upsert_pushed productId productId) by done. simpl.
    rewrite upsert_found
      by (rewrite fmap_app; apply elem_of_app; right; apply list_elem_of_here).
    by rewrite (add_quantity_first productId b cartItems
                  (mkCartLine productId a) []).
Qed.

Lemma quantity_of_app productId l1 l2 :
  quantity_of productId (l1 ++ l2)
  = quantity_of productId l1 + quantity_of productId l2.
Proof.
  induction l1 as [|item l1 IH]; simpl; [reflexivity|].
  destruct (String.eqb (cl_productId item) productId); rewrite IH; lia.
Qed.

Lemma quantity_of_add_quantity productId quantity cartItems :
  productId ∈ cl_productId <$> cartItems →
  quantity_of productId (add_quantity productId quantity cartItems)
  = quantity_of productId cartItems + quantity.
Proof.
  induction cartItems as [|item rest IH]; intros Hin.
  - by apply elem_of_nil in Hin.
  - simpl add_quantity. unfold same_product at 1.
    destruct (String.eqb_spec (cl_productId item) productId) as [Heq|Hne].
    + simpl. rewrite Heq, String.eqb_refl. lia.
    + rewrite fmap_cons in Hin. apply elem_of_cons in Hin as [Heq|Hin];
        [congruence|].
      simpl. rewrite (IH Hin).
      by destruct (String.eqb_spec (cl_productId item) productId).
Qed.

Lemma quantity_of_add_quantity_other productId other quantity cartItems :
  other ≠ productId →
  quantity_of other (add_quantity productId quantity cartItems)
  = quantity_of other cartItems.
Proof.
  intros Hne. induction cartItems as [|item rest IH]; [reflexivity|].
  simpl add_quantity. unfold same_product at 1.
  destruct (String.eqb_spec (cl_productId item) productId) as [Heq|Hne'].
  - simpl. rewrite Heq.
    by destruct (String.eqb_spec productId other); [congruence|].
  - simpl. by rewrite IH.
Qed.

End CartAlgebra.

(** X8. Adding to the cart accumulates when the body spells the id of the
    product as ObjectIds print: adding a quantity of a product and then
    another quantity of it, under that spelling, leaves the same carts as
    adding the sum at once, when both lookups of the product resolve. On
    the lines of a cart, upserting twice under that spelling is upserting
    the sum. *)
Theorem addItem_accumulates (w : World) (user productId : ObjectId) (a b : Z) :
  is_ObjectId productId →
  default false (head (outages w)) = false →
  default false (head (tail (outages w))) = false →
  is_Some (products w !! productId) →
  carts (snd (OrderService.addItem user productId (Some b)
                (snd (OrderService.addItem user productId (Some a) w))))
  = carts (snd (OrderService.addItem user productId (Some (a + b)) w)) ∧
  ∀ cartItems,
    OrderService.upsert productId a cartItems ≫= OrderService.upsert productId b
    = OrderService.upsert productId (a + b) cartItems.
Proof.
  intros Hid Hfirst Hsecond [product Hp].
  split; [|intros; by apply upsert_twice].
  assert (Hupsert : ∀ q lines, ∃ cartItems,
    OrderService.upsert productId q lines = Some cartItems).
  { intros q lines. unfold OrderService.upsert. rewrite Hid.
    destruct (find _ _); by eexists. }
  destruct (Hupsert a (cart_lines user w)) as [first Ha].
  destruct (Hupsert b first) as [second Hb].
  assert (Hsum : OrderService.upsert productId (a + b) (cart_lines user w)
                 = Some second).
  { rewrite <- (upsert_twice productId a b _ Hid), Ha. exact Hb. }
  rewrite (addItem_run user productId (Some a) w), Hfirst, Hid, Hp. simpl.
  rewrite Ha. unfold snd at 2.
  rewrite (addItem_run user productId (Some (a + b)) w), Hfirst, Hid, Hp. simpl.
  rewrite Hsum. rewrite addItem_run. simpl. rewrite Hsecond, Hid, Hp.
  unfold cart_lines at 1. simpl. rewrite lookup_insert_eq. simpl.
  rewrite Hb. simpl. rewrite insert_insert_eq. f_equal.
  unfold saved_cart. simpl. by rewrite lookup_insert_eq.
Qed.

Lemma addItem_accumulates_witness :
  carts (snd (OrderService.addItem ann_id lamp_id (Some 3)
                (snd (OrderService.addItem ann_id lamp_id (Some 4) lamp_shop))))
  = {[ann_id := mkCart ann_id [mkCartLine lamp_id 9] 100]}.
Proof.
  destruct (addItem_accumulates lamp_shop ann_id lamp_id 4 3 eq_refl eq_refl
              eq_refl) as [Hcarts _]; [by eexists|].
  rewrite Hcarts. reflexivity.
Defined.

(** X9. What upserting does to the quantities of a cart whose lines carry
    ObjectIds, for a string of the body that casts to an ObjectId: the
    quantity the cart holds of that product grows by the amount, the
    quantity it holds of every other product stays, the lines still carry
    ObjectIds, and the cart gets one line more exactly when no line
    carries the id as the body spells it. *)
Theorem upsert_quantities (productId : string) (stored : ObjectId)
    (amount : Z) (cartItems : list CartLine) :
  castObjectId productId = Some stored →
  Forall is_ObjectId (cl_productId <$> cartItems) →
  ∃ upserted,
    OrderService.upsert productId amount cartItems = Some upserted ∧
    quantity_of stored upserted = quantity_of stored cartItems + amount ∧
    (∀ other, other ≠ stored →
       quantity_of other upserted = quantity_of other cartItems) ∧
    Forall is_ObjectId (cl_productId <$> upserted) ∧
    length upserted
    = if bool_decide (productId ∈ cl_productId <$> cartItems)
      then length cartItems else S (length cartItems).
Proof.
  intros Hcast Hids.
  destruct (decide (productId ∈ cl_productId <$> cartItems)) as [Hin|Hout].
  - rewrite bool_decide_eq_true_2 by exact Hin.
    pose proof (found_spelling_is_stored _ _ _ Hcast Hids Hin) as ->.
    eexists. split; [by apply upsert_found|].
    split; [by apply quantity_of_add_quantity|].
    split; [intros other Hne; by apply quantity_of_add_quantity_other|].
    split; [by rewrite add_quantity_ids|].
    rewrite <- (length_fmap cl_productId), add_quantity_ids.
    apply length_fmap.
  - rewrite bool_decide_eq_false_2 by exact Hout.
    eexists. split; [by apply upsert_pushed|]. split; [|split; [|split]].
    + rewrite quantity_of_app. simpl. rewrite String.eqb_refl. lia.
    + intros other Hne. rewrite quantity_of_app. simpl.
      destruct (String.eqb_spec stored other); [congruence | lia].
    + rewrite fmap_app. apply Forall_app. split; [exact Hids|].
      constructor; [|constructor]. simpl. unfold is_ObjectId.
      by apply castObjectId_idempotent with productId.
    + rewrite length_app. simpl. lia.
Qed.

Lemma upsert_quantities_witness :
  let lines := [mkCartLine lamp_id 2; mkCartLine desk_id 3] in
  ∃ upserted,
    OrderService.upsert lamp_ID 4 lines = Some upserted ∧
    quantity_of lamp_id upserted = 6 ∧ quantity_of desk_id upserted = 3 ∧
    length upserted = 3%nat.
Proof.
  intros lines.
  destruct (upsert_quantities lamp_ID lamp_id 4 lines eq_refl)
    as (upserted & Hrun & Hsame & Hother & _ & Hlength).
  { repeat constructor. }
  exists upserted. split; [exact Hrun|]. split; [exact Hsame|].
  split; [|exact Hlength]. rewrite (Hother desk_id); [reflexivity | discriminate].
Defined.

(** X10. [GET /cart] always answers 200 with lines and their total, never
    an error, whatever the catalog and the transport do; it leaves carts,
    orders, catalog and notifications as they were; and for a user
    without a cart it answers no line and total 0 without any call. *)
Theorem getCart_always_answers (w : World) (user : ObjectId) :
  ∃ lines total w',
    OrderService.getCart user w
    = (Ok (mkResponse 200 (JCartView lines total)), w') ∧
    same_stores w w' ∧
    total = sum_subtotals lines ∧
    (carts w !! user = None → lines = [] ∧ total = 0 ∧ w' = w).
Proof.
  unfold OrderService.getCart. unfold try_catch, bind at 1, get_world.
  destruct (carts w !! user) as [cart|] eqn:Hcart.
  - destruct (cart_details_run (c_items cart) [] 0 w) as (w' & Hs & Hrun).
    unfold bind. rewrite Hrun. eexists _, _, _. split; [reflexivity|].
    split; [exact Hs|]. split; [reflexivity | discriminate].
  - eexists _, _, _. split; [reflexivity|]. split; [apply same_stores_refl|].
    by repeat split.
Qed.

(** ** Order service: how a checkout ends *)

Section CheckoutEnds.
Import OrderService.

(** The ways [POST /orders] ends: before anything is stored, with an
    answer 400 or 500; or with the order stored, and then the answer is
    201 when the stock loop went through and 500 when it did not. *)
Lemma createOrder_outcome user address w :
  ∃ response w',
    createOrder user address w = (Ok response, w') ∧
    (((res_status response = 400%nat ∨ res_status response = 500%nat) ∧
      same_but_transport w w') ∨
     (∃ order snapshots w1 r w2,
        same_but_transport w w1 ∧
        order = built_order user address snapshots (order_total snapshots) w1 ∧
        decrease_stock snapshots (set_orders (insert (_id order) order) w1)
        = (r, w2) ∧
        ((r = Ok tt ∧ response = mkResponse 201 (JOrder order) ∧
          w' = notified "order_created" user (order_created user order)
                        (set_carts (delete user) w2)) ∨
         (∃ e, r = Throw e ∧ response = mkResponse 500 (JError e) ∧ w' = w2)))).
Proof.
  destruct (carts w !! user) as [cart|] eqn:Hcart.
  2:{ rewrite createOrder_no_cart by exact Hcart. eexists _, _.
      split; [reflexivity|]. left. split; [by left|].
      apply same_but_transport_refl. }
  destruct (decide (c_items cart = [])) as [Hnil|Hlines].
  { rewrite (createOrder_no_lines _ _ _ _ Hcart Hnil). eexists _, _.
    split; [reflexivity|]. left. split; [by left|].
    apply same_but_transport_refl. }
  rewrite (createOrder_run _ _ _ _ Hcart Hlines).
  destruct (order_items (c_items cart) [] 0 w)
    as [[[response|[orderItems total]]|e] w1] eqn:Hloop;
    pose proof (order_items_transport _ _ _ _ _ _ Hloop) as Hsame.
  - eexists _, _. split; [reflexivity|]. left. split; [|exact Hsame].
    left. by eapply order_items_inl.
  - apply order_items_inr in Hloop as (snapshots & -> & -> & _).
    simpl app. change (0 + order_total snapshots) with (order_total snapshots).
    cbv beta iota zeta.
    destruct (valid_order _).
    2:{ eexists _, _. split; [reflexivity|]. left. split; [by right|exact Hsame]. }
    destruct (decrease_stock snapshots _) as [[[]|e] w2] eqn:Hdec.
    + eexists _, _. split; [reflexivity|]. right.
      eexists _, snapshots, w1, _, w2. split; [exact Hsame|].
      split; [reflexivity|]. split; [exact Hdec|]. left. by repeat split.
    + eexists _, _. split; [reflexivity|]. right.
      eexists _, snapshots, w1, _, w2. split; [exact Hsame|].
      split; [reflexivity|]. split; [exact Hdec|]. right. by exists e.
  - eexists _, _. split; [reflexivity|]. left. split; [by right|exact Hsame].
Qed.

(** The stores after a checkout that stored its order. *)
Lemma createOrder_stored user address w order snapshots w1 r w2 :
  same_but_transport w w1 →
  order = built_order user address snapshots (order_total snapshots) w1 →
  decrease_stock snapshots (set_orders (insert (_id order) order) w1) = (r, w2) →
  orders w !! _id order = None ∧
  orders w2 = <[_id order := order]> (orders w) ∧
  carts w2 = carts w.
Proof.
  intros Hsame -> Hdec.
  apply same_but_transport_stores in Hsame as (Hc1 & Ho1 & _).
  apply decrease_stock_frame in Hdec as (Hc2 & Ho2 & _).
  rewrite Ho2, Hc2. simpl. rewrite Ho1, Hc1. split; [|by split].
  rewrite <- Ho1. apply fresh_order_id.
Qed.

End CheckoutEnds.

(** X11. [POST /orders] never fails to answer, and answers 201, 400 or
    500. An answer 400 means nothing happened but calls to the catalog:
    carts, orders, stocks, notifications and console are as before. *)
Theorem createOrder_answers (w : World) (user : ObjectId) (address : Address) :
  ∃ response w',
    OrderService.createOrder user address w = (Ok response, w') ∧
    (res_status response = 201%nat ∨ res_status response = 400%nat ∨
     res_status response = 500%nat) ∧
    (res_status response = 400%nat → same_but_transport w w').
Proof.
  destruct (createOrder_outcome user address w)
    as (response & w' & Hrun & [[Hstatus Hsame] | Hstored]).
  - exists response, w'. split; [exact Hrun|]. split; [|by intros _].
    destruct Hstatus; [right; by left | right; by right].
  - destruct Hstored as (order & snapshots & w1 & r & w2 & _ & _ & _ & Hend).
    exists response, w'. split; [exact Hrun|].
    destruct Hend as [(_ & -> & _) | (e & _ & -> & _)]; simpl.
    + split; [by left | discriminate].
    + split; [right; by right | discriminate].
Qed.

(** X12. No partial order: when the catalog lacks the product of some
    line of the cart, [POST /orders] does not answer 201, and nothing
    happened but calls to the catalog: no order is stored, no stock has
    moved, the cart is as it was. *)
Theorem createOrder_missing_product (w w' : World) (user : ObjectId)
    (address : Address) (cart : Cart) (item : CartLine) (response : Response) :
  carts w !! user = Some cart →
  item ∈ c_items cart →
  products w !! cl_productId item = None →
  OrderService.createOrder user address w = (Ok response, w') →
  (res_status response = 400%nat ∨ res_status response = 500%nat) ∧
  same_but_transport w w'.
Proof.
  intros Hcart Hitem Hmissing Hrun.
  assert (Hlines : c_items cart ≠ []).
  { intros Hnil. rewrite Hnil in Hitem. by apply elem_of_nil in Hitem. }
  rewrite (createOrder_run _ _ _ _ Hcart Hlines) in Hrun.
  destruct (OrderService.order_items (c_items cart) [] 0 w)
    as [[[early|[orderItems total]]|e] w1] eqn:Hloop;
    pose proof (order_items_transport _ _ _ _ _ _ Hloop) as Hsame.
  - injection Hrun as <- <-. split; [|exact Hsame].
    left. by eapply order_items_inl.
  - apply order_items_inr in Hloop as (snapshots & _ & _ & Hsnap).
    destruct (snapshots_lines w _ _ Hsnap) as (_ & _ & Hin & _).
    rewrite Forall_forall in Hin. destruct (Hin item Hitem) as (p & Hp & _).
    congruence.
  - injection Hrun as <- <-. split; [by right | exact Hsame].
Qed.

Lemma createOrder_missing_product_witness :
  let w := set_carts (insert "u1" (mkCart "u1" [mkCartLine "p1" 2; mkCartLine "gone" 1] 0))
                     checkout_world in
  OrderService.createOrder "u1" home w
  = (Ok (mkResponse 500 (JError "Request failed with status code 404")), w).
Proof.
  intros w.
  destruct (OrderService.createOrder "u1" home w) as [r w'] eqn:Hrun.
  assert (Hr : r = Ok (mkResponse 500 (JError "Request failed with status code 404"))).
  { apply (f_equal fst) in Hrun. vm_compute in Hrun. by subst r. }
  subst r.
  destruct (createOrder_missing_product w w' "u1" home
              (mkCart "u1" [mkCartLine "p1" 2; mkCartLine "gone" 1] 0)
              (mkCartLine "gone" 1) _ eq_refl
              ltac:(apply list_elem_of_further, list_elem_of_here)
              eq_refl Hrun) as [_ Hsame].
  f_equal. rewrite Hsame. apply (f_equal snd) in Hrun. simpl in Hrun.
  assert (Hout : outages w' = []) by (rewrite <- Hrun; reflexivity).
  rewrite Hout. reflexivity.
Defined.

Lemma createOrder_answers_witness :
  let short := set_products (alter (ProductService.with_stock 1) "p1")
                            checkout_world in
  ∃ response w',
    OrderService.createOrder "u1" home short = (Ok response, w') ∧
    res_status response = 400%nat ∧ w' = short.
Proof.
  intros short.
  destruct (createOrder_answers short "u1" home)
    as (response & w' & Hrun & _ & Hsame).
  exists response, w'. split; [exact Hrun|].
  assert (Hstatus : res_status response = 400%nat).
  { apply (f_equal fst) in Hrun. vm_compute in Hrun. by injection Hrun as <-. }
  split; [exact Hstatus|]. rewrite (Hsame Hstatus).
  apply (f_equal snd) in Hrun. simpl in Hrun.
  assert (Hout : outages w' = []) by (rewrite <- Hrun; reflexivity).
  rewrite Hout. reflexivity.
Defined.

Lemma getCart_always_answers_witness :
  OrderService.getCart "u2" checkout_world
  = (Ok (mkResponse 200 (JCartView [] 0)), checkout_world).
Proof.
  destruct (getCart_always_answers checkout_world "u2")
    as (lines & total & w' & Hrun & _ & _ & Hnone).
  destruct (Hnone eq_refl) as (-> & -> & ->). exact Hrun.
Defined.

Section AfterCheckout.
Import OrderService.

(** What an answer 201 of [POST /orders] tells of the world after it. *)
Lemma createOrder_created user address w w' order :
  createOrder user address w = (Ok (mkResponse 201 (JOrder order)), w') →
  carts w' !! user = None ∧ userId order = user ∧
  orders w !! _id order = None ∧
  orders w' = <[_id order := order]> (orders w).
Proof.
  intros Hrun.
  destruct (createOrder_outcome user address w)
    as (response & w'' & Hrun' & Hend).
  rewrite Hrun in Hrun'. injection Hrun' as <- <-.
  destruct Hend as [[[Hs|Hs] _] | Hstored]; [discriminate Hs..|].
  destruct Hstored as (o & snapshots & w1 & r & w2 & Hsame & Ho & Hdec & Hend).
  destruct (createOrder_stored _ _ _ _ _ _ _ _ Hsame Ho Hdec) as (Hnew & Ho2 & _).
  destruct Hend as [(_ & [= <-] & ->) | (e & _ & [=] & _)].
  match goal with |- context [notified ?t ?u ?m ?x] =>
    destruct (notified_stores t u m x) as (-> & -> & _) end.
  simpl. split; [apply lookup_delete_eq|]. split; [by rewrite Ho|].
  by split.
Qed.

End AfterCheckout.

(** X13. A checkout is not repeatable: right after [POST /orders]
    answered 201, a second [POST /orders] of the same user, to whatever
    address, answers 400 "Cart is empty" and changes nothing. *)
Theorem createOrder_twice (w w' : World) (user : ObjectId)
    (address again : Address) (order : Order) :
  OrderService.createOrder user address w
  = (Ok (mkResponse 201 (JOrder order)), w') →
  OrderService.createOrder user again w'
  = (Ok (mkResponse 400 (JError "Cart is empty")), w').
Proof.
  intros Hrun. apply createOrder_created in Hrun as (Hcart & _).
  by apply createOrder_no_cart.
Qed.

Lemma createOrder_twice_witness :
  let w' := snd (OrderService.createOrder "u1" home checkout_world) in
  OrderService.createOrder "u1" home w'
  = (Ok (mkResponse 400 (JError "Cart is empty")), w').
Proof.
  intros w'.
  apply (createOrder_twice checkout_world w' "u1" home home
           (mkOrder "0" "u1" [mkOrderItem "p1" "Lamp" 10 2 "lamp.png"] 20
                    "pending" "pending" None home None 100 100)).
  unfold w'. destruct (OrderService.createOrder "u1" home checkout_world)
    as [r w''] eqn:Hrun.
  apply (f_equal fst) in Hrun. vm_compute in Hrun. simpl. by subst r.
Defined.

(** X14. The order of an answer 201 can be read back by its owner:
    [GET /orders/:id] on its id answers 200 with that very order, and
    [GET /orders] lists it; the orders the store had are all still there,
    unchanged. *)
Theorem createOrder_read_back (w w' : World) (user : ObjectId)
    (address : Address) (order : Order) :
  OrderService.createOrder user address w
  = (Ok (mkResponse 201 (JOrder order)), w') →
  OrderService.getOrder (_id order) user w'
  = (Ok (mkResponse 200 (JOrder order)), w') ∧
  (∃ listed,
     OrderService.listOrders user w'
     = (Ok (mkResponse 200 (JOrders listed)), w') ∧ order ∈ listed) ∧
  (∀ id old, orders w !! id = Some old → orders w' !! id = Some old).
Proof.
  intros Hrun. apply createOrder_created in Hrun as (_ & Huser & Hnew & Horders).
  split; [|split].
  - rewrite getOrder_run.
    assert (OrderService.Order_findOne (_id order) user w' = Some order) as ->;
      [|reflexivity].
    apply Order_findOne_Some. rewrite Horders, lookup_insert_eq. by split.
  - eexists. split; [apply listOrders_run|].
    rewrite merge_sort_Permutation. apply elem_of_Order_find.
    split; [exact Huser|]. exists (_id order).
    by rewrite Horders, lookup_insert_eq.
  - intros id old Hold. rewrite Horders, lookup_insert_ne; [exact Hold|].
    intros <-. congruence.
Qed.

Lemma createOrder_read_back_witness :
  let order := mkOrder "0" "u1" [mkOrderItem "p1" "Lamp" 10 2 "lamp.png"] 20
                       "pending" "pending" None home None 100 100 in
  let w' := snd (OrderService.createOrder "u1" home checkout_world) in
  OrderService.getOrder "0" "u1" w' = (Ok (mkResponse 200 (JOrder order)), w').
Proof.
  intros order w'.
  destruct (createOrder_read_back checkout_world w' "u1" home order) as [Hget _];
    [|exact Hget].
  unfold w'. destruct (OrderService.createOrder "u1" home checkout_world)
    as [r w''] eqn:Hrun.
  apply (f_equal fst) in Hrun. vm_compute in Hrun. simpl. by subst r.
Defined.

(** ** Order service: what every request keeps *)

Section EveryRequest.
Import OrderService.

Lemma getCart_same_stores user w : same_stores w (snd (getCart user w)).
Proof.
  unfold getCart. unfold try_catch, bind at 1, get_world.
  destruct (carts w !! user) as [cart|]; [|apply same_stores_refl].
  destruct (cart_details_run (c_items cart) [] 0 w) as (w' & Hs & Hrun).
  unfold bind. by rewrite Hrun.
Qed.

Lemma addItem_same_stores user productId quantity w :
  orders (snd (addItem user productId quantity w)) = orders w ∧
  products (snd (addItem user productId quantity w)) = products w ∧
  ∀ other, other ≠ user →
    carts (snd (addItem user productId quantity w)) !! other = carts w !! other.
Proof.
  rewrite addItem_run.
  destruct (default false (head (outages w))); [done|].
  destruct (castObjectId productId) as [stored|]; [|done].
  destruct (products w !! stored); [|done].
  destruct (upsert productId (default 1 quantity) (cart_lines user w));
    [|done].
  simpl. split; [done|]. split; [done|].
  intros other Hne. by rewrite lookup_insert_ne.
Qed.

(** What a request does to the order store: nothing, or it stores a new
    order of the requester, or it sets the status of an order of the
    requester. *)
Lemma handle_orders r w :
  orders (snd (handle r w)) = orders w ∨
  (∃ o, orders w !! _id o = None ∧ userId o = requester r ∧
        totalAmount o = order_total (items o) ∧
        orders (snd (handle r w)) = <[_id o := o]> (orders w)) ∨
  (∃ id o newStatus,
     r = UpdateStatus id (userId o) newStatus ∧ orders w !! id = Some o ∧
     orders (snd (handle r w))
     = <[id := with_status newStatus (clock w) o]> (orders w)).
Proof.
  destruct r as [user|user productId quantity|user address|user|id user|id user newStatus]; simpl.
  - left. by destruct (getCart_same_stores user w) as (_ & -> & _).
  - left. by destruct (addItem_same_stores user productId quantity w) as (-> & _).
  - destruct (createOrder_outcome user address w)
      as (response & w' & -> & [[_ Hsame] | Hstored]); simpl.
    + left. by apply same_but_transport_stores in Hsame as (_ & -> & _).
    + destruct Hstored as (o & snapshots & w1 & res & w2 & Hsame & Ho & Hdec & Hend).
      destruct (createOrder_stored _ _ _ _ _ _ _ _ Hsame Ho Hdec)
        as (Hnew & Ho2 & _).
      right. left. exists o. split; [exact Hnew|].
      split; [by rewrite Ho|]. split; [by rewrite Ho|].
      destruct Hend as [(_ & _ & ->) | (e & _ & _ & ->)]; [|exact Ho2].
      match goal with |- context [notified ?t ?u ?m ?x] =>
        destruct (notified_stores t u m x) as (_ & -> & _) end.
      exact Ho2.
  - by left.
  - left. by rewrite getOrder_run.
  - destruct (Order_findOne id user w) as [o|] eqn:Hfind.
    + rewrite (updateStatus_found _ _ _ _ _ Hfind). unfold snd.
      match goal with |- context [notified ?t ?u ?m ?x] =>
        destruct (notified_stores t u m x) as (_ & -> & _) end.
      apply Order_findOne_Some in Hfind as [Ho <-].
      right. right. by exists id, o, newStatus.
    + left. by rewrite (updateStatus_missing _ _ _ _ Hfind).
Qed.

Lemma handle_other_carts r w other :
  other ≠ requester r →
  carts (snd (handle r w)) !! other = carts w !! other.
Proof.
  intros Hne.
  destruct r as [user|user productId quantity|user address|user|id user|id user newStatus];
    simpl in *.
  - by rewrite getCart_carts.
  - by apply addItem_same_stores.
  - destruct (createOrder_carts user address w) as [-> | ->]; [done|].
    by rewrite lookup_delete_ne.
  - done.
  - by rewrite getOrder_run.
  - by rewrite updateStatus_carts.
Qed.

Lemma decrease_stock_nonneg orderItems : ∀ w r w',
  stock_nonneg w → decrease_stock orderItems w = (r, w') → stock_nonneg w'.
Proof.
  induction orderItems as [|item rest IH]; intros w r w' Hw.
  - by intros [= _ <-].
  - rewrite decrease_stock_cons.
    destruct (default false (head (outages w))); [by intros [= _ <-]|].
    destruct (products w !! oi_productId item) as [product|] eqn:Hp;
      [|by intros [= _ <-]].
    destruct (Z.ltb_spec (p_stock product) (oi_quantity item));
      [by intros [= _ <-]|].
    apply IH. intros id p. simpl.
    apply (stock_nonneg_insert w); [exact Hw | simpl; lia].
Qed.

End EveryRequest.

(** X15. Every request of the order service keeps the order store well
    formed: each stored order sits under its own id and its
    [totalAmount] is the sum over its lines of price times quantity. A
    status update never makes the total of an order differ from its
    lines. *)
Theorem handle_keeps_orders_wf (r : Request) (w : World) :
  orders_wf w → orders_wf (snd (handle r w)).
Proof.
  intros Hw. unfold orders_wf.
  destruct (handle_orders r w) as [-> | [(o & Hnew & _ & Htotal & ->) |
                                        (id & o & s & _ & Ho & ->)]].
  - exact Hw.
  - intros id order. rewrite lookup_insert.
    case_decide as Hid; [|apply Hw]. intros [= <-]. by split.
  - intros id' order. rewrite lookup_insert.
    case_decide as Hid; [|apply Hw]. intros [= <-]. simpl.
    destruct (Hw id o Ho) as [Hkey Htotal]. by subst id'.
Qed.

Lemma handle_keeps_orders_wf_witness :
  let w' := snd (handle (CreateOrder "u1" home) checkout_world) in
  orders_wf w' ∧
  totalAmount <$> orders w' !! "0" = Some 20.
Proof.
  intros w'. split; [|reflexivity].
  apply (handle_keeps_orders_wf (CreateOrder "u1" home) checkout_world).
  intros id order. simpl. by rewrite lookup_empty.
Defined.

(** X16. No request of the order service deletes an order or rewrites
    one: an order of the store is still there after any request, with its
    id, owner, lines, total, payment status, address and creation time;
    and its status differs only after a status update on it by its
    owner, to the status it then has. *)
Theorem handle_keeps_orders (r : Request) (w : World) (id : ObjectId)
    (order : Order) :
  orders w !! id = Some order →
  ∃ order',
    orders (snd (handle r w)) !! id = Some order' ∧
    same_order order order' ∧
    (status order' ≠ status order →
     r = UpdateStatus id (userId order) (status order')).
Proof.
  intros Hid.
  destruct (handle_orders r w) as [-> | [(o & Hnew & _ & _ & ->) |
                                        (id' & o & s & Hr & Ho & ->)]].
  - exists order. split; [exact Hid|]. split; [by repeat split | congruence].
  - exists order. rewrite lookup_insert_ne by (intros <-; congruence).
    split; [exact Hid|]. split; [by repeat split | congruence].
  - rewrite lookup_insert. case_decide as Heq.
    + subst id'. assert (o = order) as -> by congruence.
      eexists. split; [reflexivity|]. split; [by repeat split|].
      intros _. exact Hr.
    + exists order. split; [exact Hid|]. split; [by repeat split | congruence].
Qed.

Lemma handle_keeps_orders_witness :
  ∃ order',
    orders (snd (handle (UpdateStatus "o1" "u1" "shipped") store_of_three)) !! "o1"
    = Some order' ∧
    totalAmount order' = 10 ∧ createdAt order' = 10 ∧ status order' = "shipped".
Proof.
  edestruct (handle_keeps_orders (UpdateStatus "o1" "u1" "shipped")
               store_of_three "o1") as (order' & Hid & Hsame & _);
    [reflexivity|].
  exists order'. split; [exact Hid|].
  destruct Hsame as (_ & _ & _ & -> & _ & _ & ->).
  split; [reflexivity|]. split; [reflexivity|].
  vm_compute in Hid. by injection Hid as <-.
Defined.

(** X17. A request touches nothing of another user: after any request,
    the cart of every user other than the requester is as it was, and the
    orders of every such user are exactly the ones the store had, as they
    were. *)
Theorem handle_isolation (r : Request) (w : World) (other : ObjectId) :
  other ≠ requester r →
  carts (snd (handle r w)) !! other = carts w !! other ∧
  ∀ id order, userId order = other →
    (orders (snd (handle r w)) !! id = Some order ↔ orders w !! id = Some order).
Proof.
  intros Hne. split; [by apply handle_other_carts|].
  intros id order Howner.
  destruct (handle_orders r w) as [-> | [(o & Hnew & Hu & _ & ->) |
                                        (id' & o & s & Hr & Ho & ->)]].
  - reflexivity.
  - rewrite lookup_insert. case_decide as Heq.
    + subst id. split; [intros [= <-]; congruence | congruence].
    + reflexivity.
  - assert (Hu : userId o = requester r) by (by rewrite Hr).
    rewrite lookup_insert. case_decide as Heq.
    + subst id'. split; [intros [= <-]; simpl in *; congruence | congruence].
    + reflexivity.
Qed.

Lemma handle_isolation_witness :
  let w' := snd (handle (UpdateStatus "o2" "u1" "cancelled") store_of_three) in
  let w'' := snd (handle (CreateOrder "u1" home) checkout_world) in
  orders w' !! "o2" = orders store_of_three !! "o2" ∧
  carts w'' !! "u2" = carts checkout_world !! "u2".
Proof.
  intros w' w''.
  destruct (handle_isolation (UpdateStatus "o2" "u1" "cancelled")
              store_of_three "u2" ltac:(discriminate)) as [_ Horders].
  destruct (handle_isolation (CreateOrder "u1" home) checkout_world "u2"
              ltac:(discriminate)) as [Hcarts _].
  split; [|exact Hcarts].
  destruct (orders store_of_three !! "o2") as [order|] eqn:Ho; [|discriminate].
  apply Horders; [|exact Ho].
  vm_compute in Ho. by injection Ho as <-.
Defined.

(** X18. No request of the order service drives a stock below zero:
    from a catalog without negative stock, the catalog after any request
    has none either, however the request ends, be it a checkout that
    failed between two stock updates or one whose cart names a product
    twice. *)
Theorem handle_keeps_stock_nonneg (r : Request) (w : World) :
  stock_nonneg w → stock_nonneg (snd (handle r w)).
Proof.
  intros Hw. unfold stock_nonneg.
  destruct r as [user|user productId quantity|user address|user|id user|id user newStatus]; simpl.
  - by destruct (getCart_same_stores user w) as (_ & _ & -> & _).
  - by destruct (addItem_same_stores user productId quantity w) as (_ & -> & _).
  - destruct (createOrder_outcome user address w)
      as (response & w' & -> & [[_ Hsame] | Hstored]); simpl.
    + by apply same_but_transport_stores in Hsame as (_ & _ & -> & _).
    + destruct Hstored as (o & snapshots & w1 & res & w2 & Hsame & _ & Hdec & Hend).
      apply same_but_transport_stores in Hsame as (_ & _ & Hp1 & _).
      assert (Hw2 : stock_nonneg w2).
      { eapply decrease_stock_nonneg; [|exact Hdec].
        unfold stock_nonneg. simpl. by rewrite Hp1. }
      destruct Hend as [(_ & _ & ->) | (e & _ & _ & ->)]; [|exact Hw2].
      match goal with |- context [notified ?t ?u ?m ?x] =>
        destruct (notified_stores t u m x) as (_ & _ & ->) end.
      exact Hw2.
  - exact Hw.
  - by rewrite getOrder_run.
  - destruct (OrderService.Order_findOne id user w) as [o|] eqn:Hfind.
    + rewrite (updateStatus_found _ _ _ _ _ Hfind). unfold snd.
      match goal with |- context [notified ?t ?u ?m ?x] =>
        destruct (notified_stores t u m x) as (_ & _ & ->) end.
      exact Hw.
    + by rewrite (updateStatus_missing _ _ _ _ Hfind).
Qed.

Lemma handle_keeps_stock_nonneg_witness :
  let twice := set_carts (insert "u1" (mkCart "u1" [mkCartLine "p1" 3; mkCartLine "p1" 3] 0))
                         checkout_world in
  let w' := snd (handle (CreateOrder "u1" home) twice) in
  stock_nonneg w' ∧ p_stock <$> products w' !! "p1" = Some 2 ∧
  res_status <$> (match fst (handle (CreateOrder "u1" home) twice) with
                  | Ok response => Some response
                  | Throw _ => None
                  end) = Some 500%nat.
Proof.
  intros twice w'. split; [|split; reflexivity].
  apply (handle_keeps_stock_nonneg (CreateOrder "u1" home) twice).
  intros id p. simpl. rewrite lookup_singleton.
  case_decide; [intros [= <-]; simpl; lia | discriminate].
Defined.

Lemma notified_clock (type user message : string) (w : World) :
  clock (notified type user message w) = clock w.
Proof. unfold notified. by destruct (default false (head (outages w))). Qed.

Lemma with_status_twice (s1 s2 : string) (now : Z) (o : Order) :
  OrderService.with_status s2 now (OrderService.with_status s1 now o)
  = OrderService.with_status s2 now o.
Proof. reflexivity. Qed.

(** X19. A status the owner has set can be read back, and the last one
    set wins: after a status update on an order of the caller,
    [GET /orders/:id] answers 200 with the order under the new status;
    and a second status update leaves the order store as if it had been
    the only one. *)
Theorem updateStatus_last_write_wins (w : World) (id user : ObjectId)
    (first second : string) (order : Order) :
  orders w !! id = Some order → userId order = user →
  let w1 := snd (OrderService.updateStatus id user first w) in
  OrderService.getOrder id user w1
  = (Ok (mkResponse 200
           (JOrder (OrderService.with_status first (clock w) order))), w1) ∧
  orders (snd (OrderService.updateStatus id user second w1))
  = orders (snd (OrderService.updateStatus id user second w)).
Proof.
  intros Hid Hu w1.
  assert (Hfind : OrderService.Order_findOne id user w = Some order)
    by (by apply Order_findOne_Some).
  assert (Ho1 : orders w1
                = <[id := OrderService.with_status first (clock w) order]> (orders w)).
  { unfold w1. rewrite (updateStatus_found _ _ _ _ _ Hfind). unfold snd.
    match goal with |- context [notified ?t ?u ?m ?x] =>
      destruct (notified_stores t u m x) as (_ & -> & _) end.
    reflexivity. }
  assert (Hc1 : clock w1 = clock w).
  { unfold w1. rewrite (updateStatus_found _ _ _ _ _ Hfind). unfold snd.
    by rewrite notified_clock. }
  assert (Hfind1 : OrderService.Order_findOne id user w1
                   = Some (OrderService.with_status first (clock w) order)).
  { apply Order_findOne_Some. rewrite Ho1, lookup_insert_eq. by split. }
  split.
  - by rewrite getOrder_run, Hfind1.
  - rewrite (updateStatus_found _ _ _ _ _ Hfind1),
            (updateStatus_found _ _ _ _ _ Hfind). unfold snd.
    repeat match goal with |- context [notified ?t ?u ?m ?x] =>
      destruct (notified_stores t u m x) as (_ & -> & _) end.
    simpl. rewrite Ho1, Hc1, insert_insert_eq. by rewrite with_status_twice.
Qed.

Lemma updateStatus_last_write_wins_witness :
  let w1 := snd (OrderService.updateStatus "o1" "u1" "shipped" store_of_three) in
  status <$> orders (snd (OrderService.updateStatus "o1" "u1" "delivered" w1)) !! "o1"
  = Some "delivered".
Proof.
  intros w1.
  edestruct (updateStatus_last_write_wins store_of_three "o1" "u1"
               "shipped" "delivered") as [_ Hlast]; [reflexivity..|].
  fold w1 in Hlast. rewrite Hlast. reflexivity.
Defined.

(** ** Order service: a checkout that fails in the stock loop *)

Lemma after_order_nil (productId : ObjectId) (catalog : gmap string Product) :
  after_order productId [] <$> catalog !! productId = catalog !! productId.
Proof.
  destruct (catalog !! productId) as [p|]; [|reflexivity]. simpl.
  unfold after_order. simpl. by rewrite Z.sub_0_r, with_stock_same.
Qed.

(** Whatever its outcome, the stock loop has applied a prefix of the
    lines, the whole of them exactly when it went through, and has undone
    nothing. *)
Lemma decrease_stock_prefix orderItems : ∀ w r w',
  OrderService.decrease_stock orderItems w = (r, w') →
  ∃ applied rest,
    orderItems = applied ++ rest ∧
    (rest = [] ↔ r = Ok tt) ∧
    ∀ productId,
      products w' !! productId
      = after_order productId applied <$> products w !! productId.
Proof.
  induction orderItems as [|item rest IH]; intros w r w'.
  - intros [= <- <-]. exists [], []. split; [reflexivity|]. split; [done|].
    intros productId. by rewrite after_order_nil.
  - rewrite decrease_stock_cons.
    assert (Hstop : ∀ e, (Throw e, set_outages tail w) = (r, w') →
      ∃ applied rest0,
        item :: rest = applied ++ rest0 ∧ (rest0 = [] ↔ r = Ok tt) ∧
        ∀ productId,
          products w' !! productId
          = after_order productId applied <$> products w !! productId).
    { intros e [= <- <-]. exists [], (item :: rest).
      split; [reflexivity|]. split; [split; discriminate|].
      intros productId. simpl. by rewrite after_order_nil. }
    destruct (default false (head (outages w))); [apply Hstop|].
    destruct (products w !! oi_productId item) as [product|] eqn:Hp;
      [|apply Hstop].
    destruct (p_stock product <? oi_quantity item); [apply Hstop|].
    intros Hrest. apply IH in Hrest as (applied & rest0 & -> & Hend & Hps).
    exists (item :: applied), rest0. split; [reflexivity|]. split; [exact Hend|].
    intros productId. rewrite Hps. simpl. unfold after_order. simpl.
    destruct (String.eqb_spec (oi_productId item) productId) as [<-|Hne].
    + rewrite lookup_insert_eq, Hp. simpl.
      unfold ProductService.with_stock. simpl. do 2 f_equal. lia.
    + by rewrite lookup_insert_ne.
Qed.

(** X20. No compensation: when [POST /orders] answers 500, either nothing
    happened but calls to the catalog, or the order is stored, the cart
    is still there, and the stock updates of the first lines of the
    order, but not of all, have been applied and stay applied: every
    product has lost what those first lines take of it. *)
Theorem createOrder_failed_half_way (w w' : World) (user : ObjectId)
    (address : Address) (response : Response) :
  OrderService.createOrder user address w = (Ok response, w') →
  res_status response = 500%nat →
  same_but_transport w w' ∨
  ∃ order applied rest,
    orders w !! _id order = None ∧
    orders w' = <[_id order := order]> (orders w) ∧
    carts w' = carts w ∧
    items order = applied ++ rest ∧ rest ≠ [] ∧
    ∀ productId,
      products w' !! productId
      = after_order productId applied <$> products w !! productId.
Proof.
  intros Hrun Hstatus.
  destruct (createOrder_outcome user address w)
    as (response' & w'' & Hrun' & Hend).
  rewrite Hrun in Hrun'. injection Hrun' as <- <-.
  destruct Hend as [[_ Hsame] | Hstored]; [by left|]. right.
  destruct Hstored as (o & snapshots & w1 & r & w2 & Hsame & Ho & Hdec & Hend).
  destruct Hend as [(_ & -> & _) | (e & -> & _ & ->)]; [discriminate|].
  destruct (createOrder_stored _ _ _ _ _ _ _ _ Hsame Ho Hdec)
    as (Hnew & Ho2 & Hc2).
  destruct (decrease_stock_prefix _ _ _ _ Hdec)
    as (applied & rest & Hsplit & Hrest & Hps).
  exists o, applied, rest. split; [exact Hnew|]. split; [exact Ho2|].
  split; [exact Hc2|]. split; [by rewrite Ho|].
  split; [intros Hnil; by apply Hrest in Hnil|].
  intros productId. rewrite Hps. simpl.
  by apply same_but_transport_stores in Hsame as (_ & _ & -> & _).
Qed.

Lemma createOrder_failed_half_way_witness :
  let twice := set_carts (insert "u1" (mkCart "u1" [mkCartLine "p1" 3; mkCartLine "p1" 3] 0))
                         checkout_world in
  ∃ response w',
    OrderService.createOrder "u1" home twice = (Ok response, w') ∧
    res_status response = 500%nat ∧
    is_Some (orders w' !! "0") ∧ is_Some (carts w' !! "u1") ∧
    p_stock <$> products w' !! "p1" = Some 2.
Proof.
  intros twice.
  destruct (OrderService.createOrder "u1" home twice) as [r w'] eqn:Hrun.
  pose proof Hrun as Hvalue. vm_compute in Hvalue.
  destruct r as [response|e]; [|discriminate].
  exists response, w'. split; [reflexivity|].
  assert (Hstatus : res_status response = 500%nat)
    by (by injection Hvalue as <- _).
  split; [exact Hstatus|].
  destruct (createOrder_failed_half_way twice w' "u1" home response Hrun Hstatus)
    as [Hsame | _].
  - apply same_but_transport_stores in Hsame as (_ & Ho & _).
    injection Hvalue as _ <-. discriminate Ho.
  - injection Hvalue as _ <-. by repeat split.
Defined.

(** ** The ids of the paths *)



(** X22. Under the spelling ObjectIds print, adding to the cart keeps one
    line per product: when the body spells the id of the product as an
    ObjectId prints and the cart of the user has at most one line per
    product, it still has after [POST /cart/add], however the request
    ends. *)
Theorem addItem_keeps_one_line (w : World) (user productId : ObjectId)
    (quantity : option Z) :
  is_ObjectId productId →
  one_line_per_product (cart_lines user w) →
  one_line_per_product
    (cart_lines user (snd (OrderService.addItem user productId quantity w))).
Proof.
  intros Hid Hone. rewrite addItem_run.
  destruct (default false (head (outages w))); [exact Hone|].
  rewrite Hid. destruct (products w !! productId); [|exact Hone].
  destruct (decide (productId ∈ cl_productId <$> cart_lines user w))
    as [Hin|Hout].
  - rewrite (upsert_found _ _ _ Hin). unfold cart_lines at 1. simpl.
    rewrite lookup_insert_eq. simpl. unfold one_line_per_product.
    by rewrite add_quantity_ids.
  - rewrite (upsert_pushed _ _ _ _ Hid Hout). unfold cart_lines at 1. simpl.
    rewrite lookup_insert_eq. simpl. unfold one_line_per_product.
    rewrite fmap_app. apply NoDup_app. split; [exact Hone|].
    split; [|apply NoDup_singleton].
    intros x Hx [->|Hnil]%elem_of_cons; [contradiction|].
    by apply elem_of_nil in Hnil.
Qed.

Lemma addItem_keeps_one_line_witness :
  cart_lines ann_id (snd (OrderService.addItem ann_id lamp_id (Some 3) lamp_shop))
  = [mkCartLine lamp_id 5] ∧
  one_line_per_product
    (cart_lines ann_id
       (snd (OrderService.addItem ann_id lamp_id (Some 3) lamp_shop))).
Proof.
  split; [reflexivity|].
  apply (addItem_keeps_one_line lamp_shop ann_id lamp_id (Some 3) eq_refl).
  apply NoDup_singleton.
Defined.
